(** * mini-remediation-engine: the response parser, the validator and the
      orchestrator of [main.py], embedded in Rocq.

    Python text is modelled as a list of 8-bit characters read as the code
    points U+0000..U+00FF; [str.lower], [str.strip] and the other methods below
    follow CPython on that range.  Indices are [Z], with [-1] as the not-found
    answer of [find]/[rfind] and negative slice bounds counted from the end,
    exactly as the source relies on them. *)

From Stdlib Require Import ZArith List Bool Ascii String DecimalString Lia.
Import ListNotations.
Set Warnings "-register-all".
Open Scope string_scope.
Open Scope list_scope.
Open Scope Z_scope.

Definition str := list ascii.
Coercion list_ascii_of_string : string >-> list.

(** The double quote, and a text literal in which an apostrophe stands for
    it: [txt "{'a': 1}"] is the seven characters of the JSON text. *)
Definition dq : ascii := "034"%char.
Definition backslash : ascii := "092"%char.
Definition newline : ascii := "010"%char.
Definition quoted (s : str) : str := dq :: s ++ [dq].
Definition txt (s : string) : str :=
  map (fun c => if Ascii.eqb c "'" then dq else c) (list_ascii_of_string s).

(** ** Python's [str] methods used by the source *)

Module Py.

Definition len (s : str) : Z := Z.of_nat (List.length s).

(** A slice bound as CPython adjusts it: a negative bound counts from the
    end, and the result is clamped to [0 .. n]. *)
Definition adjust (n i : Z) : Z :=
  if i <? 0 then Z.max 0 (i + n) else Z.min i n.

(** [s[a:b]] *)
Definition slice (s : str) (a b : Z) : str :=
  let n := len s in
  let a' := adjust n a in
  let b' := adjust n b in
  firstn (Z.to_nat (b' - a')) (skipn (Z.to_nat a') s).

(** [s.startswith(p)] *)
Fixpoint starts_with (p s : str) : bool :=
  match p, s with
  | [], _ => true
  | c :: p', d :: s' => Ascii.eqb c d && starts_with p' s'
  | _ :: _, [] => false
  end.

(** First position [>= i] at which [p] occurs, [s] being the text from
    position [i] on. *)
Fixpoint find_at (p s : str) (i : Z) : Z :=
  if starts_with p s then i
  else match s with
       | [] => -1
       | _ :: s' => find_at p s' (i + 1)
       end.

(** Last position [>= i] at which [p] occurs, [s] being the text from
    position [i] on. *)
Fixpoint rfind_at (p s : str) (i : Z) : Z :=
  match s with
  | [] => if starts_with p s then i else -1
  | _ :: s' =>
      let r := rfind_at p s' (i + 1) in
      if r =? -1 then (if starts_with p s then i else -1) else r
  end.

(** [s.find(p, start)] *)
Definition find (p s : str) (start : Z) : Z :=
  let n := len s in
  let a := if start <? 0 then Z.max 0 (start + n) else start in
  if n <? a then -1 else find_at p (skipn (Z.to_nat a) s) a.

(** [s.rfind(p, start, stop)] *)
Definition rfind (p s : str) (start stop : Z) : Z :=
  let n := len s in
  let a := if start <? 0 then Z.max 0 (start + n) else start in
  let b := adjust n stop in
  if b <? a then -1
  else rfind_at p (firstn (Z.to_nat (b - a)) (skipn (Z.to_nat a) s)) a.

(** [s.rfind(p)] *)
Definition rfind0 (p s : str) : Z := rfind p s 0 (len s).

(** [p in s] *)
Definition contains (p s : str) : bool := negb (find p s 0 =? -1).

(** [s.replace(old, new)]: occurrences are replaced left to right without
    overlap; [skip] counts the characters of a replaced occurrence still to
    be dropped. *)
Fixpoint replace_go (old new s : str) (skip : nat) : str :=
  match s with
  | [] => []
  | c :: s' =>
      match skip with
      | S k => replace_go old new s' k
      | O =>
          if starts_with old s
          then new ++ replace_go old new s' (List.length old - 1)
          else c :: replace_go old new s' 0
      end
  end.

Definition replace (old new s : str) : str :=
  match old with
  | [] => new ++ flat_map (fun c => c :: new) s
  | _ :: _ => replace_go old new s 0
  end.

(** [c.isspace()] on U+0000..U+00FF: TAB..CR, FS..US, SPACE, NEL, NBSP. *)
Definition isspace (c : ascii) : bool :=
  let n := N_of_ascii c in
  (((9 <=? n) && (n <=? 13)) || ((28 <=? n) && (n <=? 32))
   || (n =? 133) || (n =? 160))%N.

Fixpoint lstrip_by (f : ascii -> bool) (s : str) : str :=
  match s with
  | [] => []
  | c :: s' => if f c then lstrip_by f s' else s
  end.

Definition rstrip_by (f : ascii -> bool) (s : str) : str :=
  rev (lstrip_by f (rev s)).

(** [s.strip()] *)
Definition strip (s : str) : str := rstrip_by isspace (lstrip_by isspace s).

(** [s.rstrip(chars)] *)
Definition rstrip (chars s : str) : str :=
  rstrip_by (fun c => existsb (Ascii.eqb c) chars) s.

(** [c.lower()] on U+0000..U+00FF: A..Z and the upper-case letters
    U+00C0..U+00DE (U+00D7, the multiplication sign, is not one). *)
Definition lower_char (c : ascii) : ascii :=
  let n := N_of_ascii c in
  if (((65 <=? n) && (n <=? 90))
      || ((192 <=? n) && (n <=? 222) && negb (n =? 215)))%N
  then ascii_of_N (n + 32) else c.

(** [s.lower()] *)
Definition lower (s : str) : str := map lower_char s.

(** [s.split(sep)] for a non-empty [sep]; [cur] is the segment being read,
    reversed. *)
Fixpoint split_go (sep s cur : str) (skip : nat) : list str :=
  match s with
  | [] => [rev cur]
  | c :: s' =>
      match skip with
      | S k => split_go sep s' cur k
      | O =>
          if starts_with sep s
          then rev cur :: split_go sep s' [] (List.length sep - 1)
          else split_go sep s' (c :: cur) 0
      end
  end.

Definition split (sep s : str) : list str := split_go sep s [] 0.

(** [sep.join(l)] *)
Fixpoint join (sep : str) (l : list str) : str :=
  match l with
  | [] => []
  | [x] => x
  | x :: l' => x ++ sep ++ join sep l'
  end.

End Py.

(** ** Python values, exceptions and what a call answers *)

(** A float that [json.loads] produces: the double nearest to [m * 10^e]
    (negated when [neg]), or one of the constants the decoder also accepts. *)
Inductive pyfloat :=
| FNaN
| FInf (neg : bool)
| FDec (neg : bool) (m : N) (e : Z).

Inductive value :=
| VNone
| VBool (b : bool)
| VInt (z : Z)
| VFloat (f : pyfloat)
| VStr (s : str)
| VList (l : list value)
| VDict (d : list (str * value)).

Inductive exn :=
| TypeError
| AttributeError
| OtherException.

Inductive res (A : Type) :=
| Ok (a : A)
| Raise (e : exn).
Arguments Ok {A} a.
Arguments Raise {A} e.

Definition bind {A B : Type} (r : res A) (k : A -> res B) : res B :=
  match r with
  | Ok a => k a
  | Raise e => Raise e
  end.

Notation "x <- r ;; k" := (bind r (fun x => k))
  (at level 61, r at next level, right associativity).

Fixpoint str_eqb (a b : str) : bool :=
  match a, b with
  | [], [] => true
  | c :: a', d :: b' => Ascii.eqb c d && str_eqb a' b'
  | _, _ => false
  end.

(** A [dict] keeps its keys in insertion order; assigning to a key that is
    present replaces the value in place. *)
Fixpoint dict_get (k : str) (d : list (str * value)) : option value :=
  match d with
  | [] => None
  | (k', v) :: d' => if str_eqb k k' then Some v else dict_get k d'
  end.

Fixpoint dict_set (k : str) (v : value) (d : list (str * value))
  : list (str * value) :=
  match d with
  | [] => [(k, v)]
  | (k', v') :: d' =>
      if str_eqb k k' then (k', v) :: d' else (k', v') :: dict_set k v d'
  end.

Definition dict_has (k : str) (d : list (str * value)) : bool :=
  match dict_get k d with Some _ => true | None => false end.

(** [d.get(k, default)] *)
Definition get_default (k : str) (default : value) (d : list (str * value))
  : value :=
  match dict_get k d with Some v => v | None => default end.

(** [bool(f)]: a decimal rounds to zero exactly when it is at most half the
    smallest subnormal, [2^-1075] (the tie goes to the even neighbour, 0). *)
Definition float_truthy (f : pyfloat) : bool :=
  match f with
  | FNaN | FInf _ => true
  | FDec _ m e =>
      if (m =? 0)%N then false
      else if 0 <=? e then true
      else negb (Z.of_N m * 2 ^ 1075 <=? 10 ^ (- e))
  end.

(** [bool(v)] *)
Definition truthy (v : value) : bool :=
  match v with
  | VNone => false
  | VBool b => b
  | VInt z => negb (z =? 0)
  | VFloat f => float_truthy f
  | VStr s => match s with [] => false | _ :: _ => true end
  | VList l => match l with [] => false | _ :: _ => true end
  | VDict d => match d with [] => false | _ :: _ => true end
  end.

Definition is_str (x : str) (v : value) : bool :=
  match v with VStr s => str_eqb x s | _ => false end.

(** [x in v] for a string [x] *)
Definition py_in (x : str) (v : value) : res bool :=
  match v with
  | VDict d => Ok (dict_has x d)
  | VList l => Ok (existsb (is_str x) l)
  | VStr s => Ok (Py.contains x s)
  | VNone | VBool _ | VInt _ | VFloat _ => Raise TypeError
  end.

(** [len(v)] *)
Definition py_len (v : value) : res Z :=
  match v with
  | VStr s => Ok (Py.len s)
  | VList l => Ok (Z.of_nat (List.length l))
  | VDict d => Ok (Z.of_nat (List.length d))
  | VNone | VBool _ | VInt _ | VFloat _ => Raise TypeError
  end.

(** What [json.loads] answers: a value, [json.JSONDecodeError], or another
    exception (a [RecursionError] on deep nesting, for one). *)
Inductive loads_result :=
| Loaded (v : value)
| JSONDecodeError
| LoadsRaised (e : exn).

(** ** A reference decoder for [json.loads]

    The parser below takes the decoder as a parameter, so every general
    theorem holds of any decoder.  The closed examples need a concrete one:
    [json_loads] follows CPython's [json.decoder] and [json.scanner] (the
    grammar of RFC 8259, the constants NaN, Infinity and -Infinity, duplicate
    keys resolved in favour of the last, control characters refused inside
    strings) on texts without a backslash-u escape.  Such an escape can name
    a character above U+00FF, which [str] here cannot hold; the decoder
    answers [LoadsRaised OtherException] on it, as it does when its fuel,
    which bounds the nesting, runs out. *)

Module Json.

Inductive scan (A : Type) :=
| Scanned (a : A) (rest : str)
| Malformed
| Beyond.
Arguments Scanned {A} a rest.
Arguments Malformed {A}.
Arguments Beyond {A}.

Definition is_ws (c : ascii) : bool :=
  let n := N_of_ascii c in ((n =? 32) || (n =? 9) || (n =? 10) || (n =? 13))%N.

Definition skip_ws (s : str) : str := Py.lstrip_by is_ws s.

(** The character a one-letter escape stands for. *)
Definition escape (c : ascii) : option ascii :=
  if Ascii.eqb c dq then Some dq
  else if Ascii.eqb c backslash then Some backslash
  else if Ascii.eqb c "/" then Some "/"%char
  else if Ascii.eqb c "b" then Some "008"%char
  else if Ascii.eqb c "f" then Some "012"%char
  else if Ascii.eqb c "n" then Some "010"%char
  else if Ascii.eqb c "r" then Some "013"%char
  else if Ascii.eqb c "t" then Some "009"%char
  else None.

(** The string whose opening quote has just been read; [acc] is what has
    been decoded so far, reversed. *)
Fixpoint scanstring (s acc : str) : scan str :=
  match s with
  | [] => Malformed
  | c :: s' =>
      if Ascii.eqb c dq then Scanned (rev acc) s'
      else if Ascii.eqb c backslash then
        match s' with
        | [] => Malformed
        | e :: s'' =>
            match escape e with
            | Some ch => scanstring s'' (ch :: acc)
            | None => if Ascii.eqb e "u" then Beyond else Malformed
            end
        end
      else if (N_of_ascii c <? 32)%N then Malformed
      else scanstring s' (c :: acc)
  end.

Definition is_digit (c : ascii) : bool :=
  let n := N_of_ascii c in ((48 <=? n) && (n <=? 57))%N.

Fixpoint span_digits (s : str) : str * str :=
  match s with
  | [] => ([], [])
  | c :: s' =>
      if is_digit c
      then let (ds, rest) := span_digits s' in (c :: ds, rest)
      else ([], s)
  end.

Definition digits_value (ds : str) : N :=
  fold_left (fun a c => (a * 10 + (N_of_ascii c - 48))%N) ds 0%N.

(** The integer part, an optional minus and then 0 or a digit string that
    does not start with 0: sign, digits, rest. *)
Definition scan_integer (s : str) : option (bool * str * str) :=
  let (neg, s1) :=
    match s with
    | c :: r => if Ascii.eqb c "-" then (true, r) else (false, s)
    | [] => (false, s)
    end in
  match s1 with
  | c :: r =>
      if Ascii.eqb c "0" then Some (neg, [c], r)
      else if is_digit c
      then let (ds, rest) := span_digits s1 in Some (neg, ds, rest)
      else None
  | [] => None
  end.

(** The optional fraction, a dot and at least one digit: its digits, rest. *)
Definition scan_frac (s : str) : option str * str :=
  match s with
  | c :: r =>
      if Ascii.eqb c "." then
        match span_digits r with
        | ([], _) => (None, s)
        | (ds, rest) => (Some ds, rest)
        end
      else (None, s)
  | [] => (None, s)
  end.

(** The optional exponent, e or E, an optional sign and at least one digit:
    its value, rest. *)
Definition scan_exp (s : str) : option Z * str :=
  match s with
  | c :: r =>
      if Ascii.eqb c "e" || Ascii.eqb c "E" then
        let (neg, r1) :=
          match r with
          | d :: r' =>
              if Ascii.eqb d "-" then (true, r')
              else if Ascii.eqb d "+" then (false, r')
              else (false, r)
          | [] => (false, r)
          end in
        match span_digits r1 with
        | ([], _) => (None, s)
        | (ds, rest) =>
            let e := Z.of_N (digits_value ds) in
            (Some (if neg then - e else e), rest)
        end
      else (None, s)
  | [] => (None, s)
  end.

(** A number: an [int] when it has neither fraction nor exponent, a [float]
    otherwise. *)
Definition scan_number (s : str) : option (value * str) :=
  match scan_integer s with
  | None => None
  | Some (neg, ds, rest) =>
      let (frac, rest1) := scan_frac rest in
      let (exp, rest2) := scan_exp rest1 in
      match frac, exp with
      | None, None =>
          let n := Z.of_N (digits_value ds) in
          Some (VInt (if neg then - n else n), rest2)
      | _, _ =>
          let fd := match frac with Some fd => fd | None => [] end in
          let e := match exp with Some e => e | None => 0 end in
          Some (VFloat (FDec neg (digits_value (ds ++ fd))
                          (e - Z.of_nat (List.length fd))), rest2)
      end
  end.

Definition dict_of_pairs (pairs : list (str * value)) : list (str * value) :=
  fold_left (fun d kv => dict_set (fst kv) (snd kv) d) pairs [].

(** [scan_once] reads one value; [scan_items] reads the rest of an array from
    the position of its next element; [scan_pairs] reads the rest of an
    object from just after the opening quote of its next key. *)
Fixpoint scan_once (fuel : nat) (s : str) : scan value :=
  match fuel with
  | O => Beyond
  | S k =>
      match s with
      | [] => Malformed
      | c :: r =>
          if Ascii.eqb c dq then
            match scanstring r [] with
            | Scanned x rest => Scanned (VStr x) rest
            | Malformed => Malformed
            | Beyond => Beyond
            end
          else if Ascii.eqb c "{" then
            match skip_ws r with
            | d :: r' =>
                if Ascii.eqb d "}" then Scanned (VDict []) r'
                else if Ascii.eqb d dq then scan_pairs k r' []
                else Malformed
            | [] => Malformed
            end
          else if Ascii.eqb c "[" then
            match skip_ws r with
            | d :: r' =>
                if Ascii.eqb d "]" then Scanned (VList []) r'
                else scan_items k (d :: r') []
            | [] => Malformed
            end
          else if Py.starts_with "null" s then Scanned VNone (skipn 4 s)
          else if Py.starts_with "true" s then Scanned (VBool true) (skipn 4 s)
          else if Py.starts_with "false" s
          then Scanned (VBool false) (skipn 5 s)
          else
            match scan_number s with
            | Some (v, rest) => Scanned v rest
            | None =>
                if Py.starts_with "NaN" s
                then Scanned (VFloat FNaN) (skipn 3 s)
                else if Py.starts_with "Infinity" s
                then Scanned (VFloat (FInf false)) (skipn 8 s)
                else if Py.starts_with "-Infinity" s
                then Scanned (VFloat (FInf true)) (skipn 9 s)
                else Malformed
            end
      end
  end

with scan_items (fuel : nat) (s : str) (acc : list value) : scan value :=
  match fuel with
  | O => Beyond
  | S k =>
      match scan_once k s with
      | Scanned v rest =>
          match skip_ws rest with
          | d :: r' =>
              if Ascii.eqb d "]" then Scanned (VList (rev (v :: acc))) r'
              else if Ascii.eqb d ","
              then scan_items k (skip_ws r') (v :: acc)
              else Malformed
          | [] => Malformed
          end
      | Malformed => Malformed
      | Beyond => Beyond
      end
  end

with scan_pairs (fuel : nat) (s : str) (acc : list (str * value))
  : scan value :=
  match fuel with
  | O => Beyond
  | S k =>
      match scanstring s [] with
      | Scanned key rest =>
          match skip_ws rest with
          | c :: r =>
              if Ascii.eqb c ":" then
                match scan_once k (skip_ws r) with
                | Scanned v rest' =>
                    match skip_ws rest' with
                    | d :: r' =>
                        if Ascii.eqb d "}"
                        then Scanned
                               (VDict (dict_of_pairs (rev ((key, v) :: acc))))
                               r'
                        else if Ascii.eqb d "," then
                          match skip_ws r' with
                          | q :: r'' =>
                              if Ascii.eqb q dq
                              then scan_pairs k r'' ((key, v) :: acc)
                              else Malformed
                          | [] => Malformed
                          end
                        else Malformed
                    | [] => Malformed
                    end
                | Malformed => Malformed
                | Beyond => Beyond
                end
              else Malformed
          | [] => Malformed
          end
      | Malformed => Malformed
      | Beyond => Beyond
      end
  end.

Definition json_loads (s : str) : loads_result :=
  match scan_once (2 * List.length s + 2) (skip_ws s) with
  | Scanned v rest =>
      match skip_ws rest with
      | [] => Loaded v
      | _ :: _ => JSONDecodeError
      end
  | Malformed => JSONDecodeError
  | Beyond => LoadsRaised OtherException
  end.

End Json.

(** ** [RemediationEngine.parse_llm_response] (main.py, lines 73-157)

    [debug_print] only prints, and is left out; the f-strings passed to it
    are evaluated whether or not debug mode is on, so the lookups and [len]
    calls inside them are kept. *)

Definition triple_backtick : str := "```".

(** Lines 80-89: the value of [json_str]. *)
Definition json_str (response_text : str) : str :=
  if Py.contains (triple_backtick ++ "json") response_text then
    let start := Py.find (triple_backtick ++ "json") response_text 0 + 7 in
    let end_ := Py.find triple_backtick response_text start in
    Py.strip (Py.slice response_text start end_)
  else if Py.contains triple_backtick response_text then
    let start := Py.find triple_backtick response_text 0 + 3 in
    let end_ := Py.find triple_backtick response_text start in
    Py.strip (Py.slice response_text start end_)
  else Py.strip response_text.

(** Lines 109-118: the [while True] loop over [issues_text].  Each round
    moves [current] past two quotes; [None] is a run that is cut off by
    [fuel] before the loop breaks. *)
Fixpoint issues_loop (fuel : nat) (issues_text : str) (current : Z)
  (issues : list str) : option (list str) :=
  match fuel with
  | O => None
  | S k =>
      let q1 := Py.find [dq] issues_text current in
      if q1 =? -1 then Some issues
      else
        let q2 := Py.find [dq] issues_text (q1 + 1) in
        if q2 =? -1 then Some issues
        else issues_loop k issues_text (q2 + 1)
               (issues ++ [Py.slice issues_text (q1 + 1) q2])
  end.

(** The loop run from [current = 0] with more fuel than it has rounds
    ([issues_loop_terminates] below). *)
Definition scan_issues (issues_text : str) : list str :=
  match issues_loop (S (List.length issues_text)) issues_text 0 [] with
  | Some issues => issues
  | None => []
  end.

(** Lines 128-131: the three replacements, in the order of the source, and
    the trim. *)
Definition unescape (fixed_code : str) : str :=
  let fixed_code := Py.replace [backslash; "n"%char] [newline] fixed_code in
  let fixed_code := Py.replace [backslash; dq] [dq] fixed_code in
  let fixed_code := Py.replace [backslash; backslash] [backslash] fixed_code in
  Py.strip fixed_code.

(** Lines 98-101: [has_issues], a test for the letters of true anywhere in
    the lower-cased payload. *)
Definition manual_has_issues (json_str : str) : bool :=
  Py.contains "true" (Py.lower json_str).

(** Lines 103-119: [issues_found], or [None] when the key is not in the
    payload and the field is not set. *)
Definition manual_issues (json_str : str) : option (list str) :=
  let issues_start := Py.find (quoted "issues_found") json_str 0 in
  if negb (issues_start =? -1) then
    let array_start := Py.find "[" json_str issues_start in
    let array_end := Py.find "]" json_str array_start in
    let issues_text := Py.slice json_str (array_start + 1) array_end in
    Some (scan_issues issues_text)
  else None.

(** Lines 123-125, for a payload in which the key was found at
    [code_start]. *)
Definition quote_start (json_str : str) (code_start : Z) : Z :=
  Py.find [dq] json_str (code_start + 13) + 1.

Definition quote_end (json_str : str) (code_start : Z) : Z :=
  let closing_brace := Py.rfind0 "}" json_str in
  Py.rfind [dq] json_str (quote_start json_str code_start) closing_brace.

(** Lines 121-131: [fixed_code], or [None] when the field is not set. *)
Definition manual_fixed_code (json_str : str) : option str :=
  let code_start := Py.find (quoted "fixed_code") json_str 0 in
  if negb (code_start =? -1) then
    let quote_start := quote_start json_str code_start in
    let quote_end := quote_end json_str code_start in
    if quote_start <? quote_end then
      Some (unescape (Py.slice json_str quote_start quote_end))
    else None
  else None.

(** Lines 96-131: the [except json.JSONDecodeError] branch, which builds
    [result] from [json_str] by hand. *)
Definition manual_parse (json_str : str) : list (str * value) :=
  let result := [] in
  let result :=
    dict_set "has_issues" (VBool (manual_has_issues json_str)) result in
  let result :=
    match manual_issues json_str with
    | Some issues => dict_set "issues_found" (VList (map VStr issues)) result
    | None => result
    end in
  match manual_fixed_code json_str with
  | Some fixed_code => dict_set "fixed_code" (VStr fixed_code) result
  | None => result
  end.

(** Lines 136-139 and 141-144: the text between an opening fence of
    [skip] characters and the next fence, when there is a next fence. *)
Definition fenced (opener : str) (skip : Z) (code : str) : option str :=
  let start := Py.find opener code 0 + skip in
  let end_ := Py.find triple_backtick code start in
  if negb (end_ =? -1) then Some (Py.strip (Py.slice code start end_))
  else None.

(** Lines 135-144 for a [code] that is a string: the new value of
    [result['fixed_code']]. *)
Definition sanitize (code : str) : str :=
  if Py.contains (triple_backtick ++ "python") code then
    match fenced (triple_backtick ++ "python") 9 code with
    | Some inner => inner
    | None => code
    end
  else if Py.contains triple_backtick code then
    match fenced triple_backtick 3 code with
    | Some inner => inner
    | None => code
    end
  else code.

(** Lines 133-144 for any decoded [result]: the membership tests, the
    subscript and the [find] calls raise on the types that do not support
    them. *)
Definition sanitize_result (result : value) : res value :=
  has <- py_in "fixed_code" result ;;
  if has then
    match result with
    | VDict d =>
        let code := get_default "fixed_code" VNone d in
        match code with
        | VStr c => Ok (VDict (dict_set "fixed_code" (VStr (sanitize c)) d))
        | _ =>
            tagged <- py_in (triple_backtick ++ "python") code ;;
            if tagged then Raise AttributeError
            else
              bare <- py_in triple_backtick code ;;
              if bare then Raise AttributeError else Ok result
        end
    | _ => Raise TypeError
    end
  else Ok result.

(** Lines 146-155: what the arguments of the [debug_print] calls evaluate.
    [result.get] needs a dict, [len] a sized value, and the slice
    [result['issues_found'][:3]] a sequence (a dict value raises there:
    TypeError up to Python 3.11, KeyError from 3.12). *)
Definition report (result : value) : res value :=
  match result with
  | VDict d =>
      _ <- py_len (get_default "issues_found" (VList []) d) ;;
      _ <- py_len (get_default "fixed_code" (VStr []) d) ;;
      if negb (dict_has "fixed_code" d)
         || negb (truthy (get_default "fixed_code" VNone d))
      then
        match dict_get "issues_found" d with
        | Some (VDict _) => Raise TypeError
        | _ => Ok result
        end
      else Ok result
  | _ => Raise AttributeError
  end.

Section Parser.

(** [json.loads] *)
Variable json_loads : str -> loads_result.

Definition parse_llm_response (response_text : str) : res value :=
  let json_str := json_str response_text in
  result <-
    match json_loads json_str with
    | Loaded v => Ok v
    | JSONDecodeError => Ok (VDict (manual_parse json_str))
    | LoadsRaised e => Raise e
    end ;;
  result <- sanitize_result result ;;
  report result.

End Parser.

(** ** [RemediationEngine.validate_fixed_code] (main.py, lines 159-191) *)

Definition placeholders : list str :=
  [ "corrected code here" : str;
    "fixed code here" : str;
    "code here" : str;
    "your code here" : str;
    "insert code" : str;
    "# TODO" : str ].

(** Lines 173-177: the placeholder on which the loop returns [False], if
    there is one. *)
Definition find_placeholder (original_code fixed_code : str) : option str :=
  let fixed_lower := Py.lower fixed_code in
  List.find
    (fun placeholder =>
       Py.contains placeholder fixed_lower
       && negb (Py.contains placeholder (Py.lower original_code)))
    placeholders.

(** What [compile(fixed_code, filename, 'exec')] does: it returns, raises
    [SyntaxError], or raises something else (a [ValueError] on a null
    character, for one). *)
Inductive compile_result :=
| Compiled
| SyntaxError
| CompileRaised (e : exn).

Section Validator.

Variable compile : str -> str -> compile_result.

(** [len(fixed_code) < len(original_code) * 0.5] compares an [int] with a
    [float] exactly, so it is [2 * len(fixed_code) < len(original_code)]. *)
Definition validate_fixed_code (original_code fixed_code filename : str)
  : res bool :=
  match find_placeholder original_code fixed_code with
  | Some _ => Ok false
  | None =>
      if 2 * Py.len fixed_code <? Py.len original_code then Ok false
      else
        match compile fixed_code filename with
        | Compiled => Ok true
        | SyntaxError => Ok false
        | CompileRaised e => Raise e
        end
  end.

End Validator.

(** ** [RemediationEngine.analyze_code] and [RemediationEngine.clone_and_fix]
       (main.py, lines 29-71 and 193-313) *)

(** Lines 197-199: [repo_parts]. *)
Definition repo_parts (repo_url : str) : list str :=
  let repo_url := Py.rstrip "/" repo_url in
  let repo_url := Py.replace ".git" "" repo_url in
  Py.split "/" (Py.replace "https://github.com/" "" repo_url).

(** Lines 201-205: the owner and the name, or [None] where the source
    prints that the URL is invalid and returns. *)
Definition resolve_repo (repo_url : str) : option (str * str) :=
  match repo_parts repo_url with
  | owner :: repo_name :: _ => Some (owner, repo_name)
  | _ => None
  end.

(** The calls the engine makes on its collaborators, in the order made. *)
Inductive event :=
| GetRepo (full_name : str)
| CloneFrom (url : str)
| CreateCompletion (prompt : str)
| WriteFile (path content : str)
| CheckoutB (branch_name : str)
| Add (path : str)
| Commit (message : str)
| Push (branch_name : str)
| CreatePull (title body head base : str).

(** The events that change the working copy, the remote or the hosting
    service. *)
Definition mutates (e : event) : bool :=
  match e with
  | GetRepo _ | CloneFrom _ | CreateCompletion _ => false
  | WriteFile _ _ | CheckoutB _ | Add _ | Commit _ | Push _
  | CreatePull _ _ _ _ => true
  end.

(** Where a run of [clone_and_fix] ends: one constructor per [return] of the
    source, [ChangeRequestCreated] for falling off the end, and [Failed] for
    the [except Exception] handler of line 309. *)
Inductive outcome :=
| InvalidIdentifier
| FileNotFound
| AnalysisFailed
| ParseFailed (e : exn)
| NoIssues
| NoFixProvided
| ValidationFailed
| ChangeRequestCreated
| Failed.

(** How the collaborators answer: [false] and [None] stand for a call that
    raises. *)
Record collaborators := {
  get_repo : str -> bool;
  clone_from : str -> bool;
  path_exists : str -> bool;
  read_file : str -> option str;
  create_completion : str -> res (option str);
  write_file : str -> str -> bool;
  checkout_b : str -> bool;
  git_add : str -> bool;
  git_commit : str -> bool;
  git_push : str -> bool;
  create_pull : str -> str -> str -> str -> bool
}.

Definition prompt_head : str := txt
"You must respond with ONLY a JSON object, nothing else. No explanations, no markdown, no code blocks.

Analyze this code and respond with valid JSON:

".

Definition prompt_tail : str := txt
"

Your response must be EXACTLY this format with no additional text:
{'has_issues': true, 'issues_found': ['specific bug description 1', 'specific bug description 2'], 'fixed_code': 'the complete corrected code with all fixes applied'}

Remember: 
- Return ONLY the JSON object
- No markdown formatting
- No explanations before or after
- The fixed_code must contain the ENTIRE corrected file
- Be specific about bugs found".

Definition decimal (n : nat) : str :=
  list_ascii_of_string (NilZero.string_of_uint (Nat.to_uint n)).

(** What iterating over [issues] yields. *)
Definition iterate (issues : value) : res (list value) :=
  match issues with
  | VList l => Ok l
  | VStr s => Ok (map (fun c => VStr [c]) s)
  | VDict d => Ok (map (fun kv => VStr (fst kv)) d)
  | VNone | VBool _ | VInt _ | VFloat _ => Raise TypeError
  end.

(** What iterating over [issues[:3]] yields. *)
Definition first_three (issues : value) : res (list value) :=
  match issues with
  | VList l => Ok (firstn 3 l)
  | VStr s => Ok (map (fun c => VStr [c]) (firstn 3 s))
  | VDict _ | VNone | VBool _ | VInt _ | VFloat _ => Raise TypeError
  end.

(** [sep.join(items)], which raises on an item that is not a string. *)
Fixpoint join_values (sep : str) (items : list value) : res str :=
  match items with
  | [] => Ok []
  | VStr x :: items' =>
      match items' with
      | [] => Ok x
      | _ :: _ => rest <- join_values sep items' ;; Ok (x ++ sep ++ rest)
      end
  | _ :: _ => Raise TypeError
  end.

(** An attempted call: the event, then the rest of the run if the call
    returned, or the handler of line 309. *)
Definition attempt (e : event) (returned : bool)
  (rest : outcome * list event) : outcome * list event :=
  if returned then (fst rest, e :: snd rest) else (Failed, [e]).

Section Orchestrator.

Variable json_loads : str -> loads_result.
Variable compile : str -> str -> compile_result.
(** [str(v)] for a [v] that is not a string, as an f-string renders it *)
Variable py_str : value -> str.
Variable w : collaborators.

Definition format (v : value) : str :=
  match v with VStr s => s | _ => py_str v end.

(** Lines 29-71, with the event of the call. *)
Definition analyze_code (file_content filename : str)
  : option str * list event :=
  let prompt := prompt_head ++ file_content ++ prompt_tail in
  match create_completion w prompt with
  | Ok content => (content, [CreateCompletion prompt])
  | Raise _ => (None, [CreateCompletion prompt])
  end.

(** Lines 260-306: the run once the fix has passed validation.  The
    robot-face character that opens the title and follows the two hashes of
    the heading lies outside the range of characters modelled here, and is
    left out of both texts. *)
Definition apply_fix (file_path base_branch : str) (issues : value)
  (fixed_code : str) : outcome * list event :=
  match iterate issues with
  | Raise _ => (Failed, [])
  | Ok items =>
      attempt (WriteFile file_path fixed_code)
        (write_file w file_path fixed_code)
      (let branch_name :=
         "fix/auto-remediation-"
         ++ Py.replace "." "-" (Py.replace "/" "-" file_path) in
       attempt (CheckoutB branch_name) (checkout_b w branch_name)
      (attempt (Add file_path) (git_add w file_path)
      (match (three <- first_three issues ;; join_values ", " three) with
       | Raise _ => (Failed, [])
       | Ok joined =>
           let commit_message := "Auto-fix: " ++ joined in
           let commit_message :=
             if 3 <? Z.of_nat (List.length items)
             then commit_message ++ " (+"
                    ++ decimal (List.length items - 3) ++ " more)"
             else commit_message in
           attempt (Commit commit_message) (git_commit w commit_message)
          (attempt (Push branch_name) (git_push w branch_name)
          (let pr_body :=
             "## Automated Code Remediation" ++ [newline; newline]
             ++ "**Issues Fixed:**" ++ [newline]
             ++ Py.join [newline] (map (fun issue => "- " ++ format issue) items)
             ++ [newline; newline]
             ++ "**File Modified:** `" ++ file_path ++ "`"
             ++ [newline; newline] ++ "---" ++ [newline]
             ++ "*This PR was automatically generated by the Remediation Engine using Groq AI.*"
             ++ [newline] in
           let title := "Auto-fix: " ++ file_path in
           attempt (CreatePull title pr_body branch_name base_branch)
             (create_pull w title pr_body branch_name base_branch)
             (ChangeRequestCreated, [])))
       end)))
  end.

(** Lines 226-258: from the analysis to the verdict of the validator. *)
Definition diagnose_and_fix (file_path base_branch original_content : str)
  : outcome * list event :=
  let (analysis, called) := analyze_code original_content file_path in
  match analysis with
  | None | Some [] => (AnalysisFailed, called)
  | Some analysis =>
      match parse_llm_response json_loads analysis with
      | Raise e => (ParseFailed e, called)
      | Ok (VDict result) =>
          if negb (truthy (get_default "has_issues" (VBool false) result))
          then (NoIssues, called)
          else
            let issues := get_default "issues_found" (VList []) result in
            let fixed_code := get_default "fixed_code" (VStr []) result in
            if negb (truthy fixed_code) then (NoFixProvided, called)
            else
              match fixed_code with
              | VStr fixed_code =>
                  match validate_fixed_code compile original_content
                          fixed_code file_path with
                  | Raise _ => (Failed, called)
                  | Ok false => (ValidationFailed, called)
                  | Ok true =>
                      let (o, t) :=
                        apply_fix file_path base_branch issues fixed_code in
                      (o, called ++ t)
                  end
              | _ => (Failed, called)
              end
      | Ok _ => (Failed, called)
      end
  end.

Definition clone_and_fix (repo_url file_path base_branch : str)
  : outcome * list event :=
  match resolve_repo repo_url with
  | None => (InvalidIdentifier, [])
  | Some (owner, repo_name) =>
      let full_name := owner ++ "/" ++ repo_name in
      attempt (GetRepo full_name) (get_repo w full_name)
      (let url := "https://github.com/" ++ full_name in
       attempt (CloneFrom url) (clone_from w url)
       (if negb (path_exists w file_path) then (FileNotFound, [])
        else
          match read_file w file_path with
          | None => (Failed, [])
          | Some original_content =>
              diagnose_and_fix file_path base_branch original_content
          end))
  end.

End Orchestrator.

(** ** [main] (main.py, lines 315-333)

    The three lines typed at the prompts; [input(...).strip() or "main"]
    makes a blank third line the branch main. *)
Definition main (json_loads : str -> loads_result)
  (compile : str -> str -> compile_result) (py_str : value -> str)
  (w : collaborators) (line1 line2 line3 : str) : outcome * list event :=
  let repo_url := Py.strip line1 in
  let file_path := Py.strip line2 in
  let base_branch :=
    match Py.strip line3 with
    | [] => "main" : str
    | _ :: _ => Py.strip line3
    end in
  clone_and_fix json_loads compile py_str w repo_url file_path base_branch.

(** Line 269: [branch_name]. *)
Definition branch_name (file_path : str) : str :=
  "fix/auto-remediation-"
  ++ Py.replace "." "-" (Py.replace "/" "-" file_path).

(** The character of the branch name that a character of the path gives. *)
Definition dashed (c : ascii) : ascii :=
  if Ascii.eqb "/" c || Ascii.eqb "." c then "-"%char else c.

(** ** Notions for the statements *)

(** [x] is a contiguous part of [s]. *)
Definition part (x s : str) : Prop := exists a b, s = a ++ x ++ b.

(** What a call changes, for the calls that change something, and the
    order in which lines 264-304 make them. *)
Inductive effect :=
| Writes
| Branches
| Stages
| Commits
| Pushes
| OpensPull.

Definition effect_of (e : event) : option effect :=
  match e with
  | GetRepo _ | CloneFrom _ | CreateCompletion _ => None
  | WriteFile _ _ => Some Writes
  | CheckoutB _ => Some Branches
  | Add _ => Some Stages
  | Commit _ => Some Commits
  | Push _ => Some Pushes
  | CreatePull _ _ _ _ => Some OpensPull
  end.

Fixpoint effects (trace : list event) : list effect :=
  match trace with
  | [] => []
  | e :: trace' =>
      match effect_of e with
      | Some x => x :: effects trace'
      | None => effects trace'
      end
  end.

Definition pipeline : list effect :=
  [Writes; Branches; Stages; Commits; Pushes; OpensPull].

(** What a completed run was: the diagnosis it acted on, and the calls it
    made. *)
Definition completed (json_loads : str -> loads_result)
  (compile : str -> str -> compile_result) (py_str : value -> str)
  (w : collaborators) (repo_url file_path base_branch : str) : Prop :=
  exists owner repo_name original_content analysis result fixed_code
         message title body,
    resolve_repo repo_url = Some (owner, repo_name)
    /\ read_file w file_path = Some original_content
    /\ create_completion w (prompt_head ++ original_content ++ prompt_tail)
       = Ok (Some analysis)
    /\ parse_llm_response json_loads analysis = Ok (VDict result)
    /\ truthy (get_default "has_issues" (VBool false) result) = true
    /\ get_default "fixed_code" (VStr []) result = VStr fixed_code
    /\ validate_fixed_code compile original_content fixed_code file_path
       = Ok true
    /\ snd (clone_and_fix json_loads compile py_str w repo_url file_path
              base_branch)
       = [ GetRepo (owner ++ "/" ++ repo_name);
           CloneFrom ("https://github.com/" ++ owner ++ "/" ++ repo_name);
           CreateCompletion (prompt_head ++ original_content ++ prompt_tail);
           WriteFile file_path fixed_code;
           CheckoutB (branch_name file_path);
           Add file_path;
           Commit message;
           Push (branch_name file_path);
           CreatePull title body (branch_name file_path) base_branch ].

(** Whether a value is a string, as [str.join] asks of each item. *)
Definition is_string (v : value) : bool :=
  match v with VStr _ => true | _ => false end.

(** Collaborators that let the fix of [file_path] through: the write, the
    branch, the staging, the commit whatever its message, the push, and the
    pull request from the branch into [base_branch] whatever its texts. *)
Definition accepts (w : collaborators) (file_path base_branch fixed_code : str)
  : Prop :=
  write_file w file_path fixed_code = true
  /\ checkout_b w (branch_name file_path) = true
  /\ git_add w file_path = true
  /\ (forall message, git_commit w message = true)
  /\ git_push w (branch_name file_path) = true
  /\ (forall title body,
         create_pull w title body (branch_name file_path) base_branch = true).

Definition quote_free (s : str) : Prop := Py.contains [dq] s = false.

(** The text of a list of items as the analysis writes them: each item
    between quotes, after a separator, and a tail after the last. *)
Definition quoted_items (items : list (str * str)) (tail : str) : str :=
  List.concat (map (fun item => fst item ++ quoted (snd item)) items) ++ tail.

(** ** Positions of occurrences, for the proofs

    [index_of p s] is the offset of the first occurrence of [p] in [s], and
    [find_at] is it shifted by the position [s] starts at. *)

Fixpoint index_of (p s : str) : option nat :=
  if Py.starts_with p s then Some O
  else match s with
       | [] => None
       | _ :: s' => option_map S (index_of p s')
       end.

(** A decoded object of the expected types: [fixed_code], when present, is
    a string, and [issues_found], when present, is a list. *)
Definition well_typed (d : list (str * value)) : bool :=
  match dict_get "fixed_code" d with
  | None | Some (VStr _) => true
  | Some _ => false
  end
  && match dict_get "issues_found" d with
     | None | Some (VList _) => true
     | Some _ => false
     end.

(** A run of [clone_and_fix] that gets as far as the parser: the identifier
    resolves, the repository is found and cloned, the file is there, and the
    analysis of its content is the non-empty text [analysis]. *)
Definition reaches_parser (w : collaborators)
  (repo_url file_path original_content analysis : str) : Prop :=
  exists owner repo_name,
    resolve_repo repo_url = Some (owner, repo_name)
    /\ get_repo w (owner ++ "/" ++ repo_name) = true
    /\ clone_from w ("https://github.com/" ++ owner ++ "/" ++ repo_name) = true
    /\ path_exists w file_path = true
    /\ read_file w file_path = Some original_content
    /\ create_completion w (prompt_head ++ original_content ++ prompt_tail)
       = Ok (Some analysis)
    /\ analysis <> [].

(** Collaborators that answer every call, with [analysis] as the analysis
    of the file [original_content]. *)
Definition obliging (original_content analysis : str) : collaborators := {|
  get_repo := fun _ => true;
  clone_from := fun _ => true;
  path_exists := fun _ => true;
  read_file := fun _ => Some original_content;
  create_completion := fun _ => Ok (Some analysis);
  write_file := fun _ _ => true;
  checkout_b := fun _ => true;
  git_add := fun _ => true;
  git_commit := fun _ => true;
  git_push := fun _ => true;
  create_pull := fun _ _ _ _ => true
|}.

(** The two fields as the claim about the fallback writes them: the list of
    issues, and the key of the fix up to its opening quote. *)
Definition issues_field : str := txt "'issues_found': ['a','b']".
Definition code_field_open : str := txt "'fixed_code': '".

(** * Facts about the string methods *)

Example slice_to_minus_one : Py.slice "abcdef" 2 (-1) = "cde".
Proof. reflexivity. Qed.

Example slice_clamps : Py.slice "abc" 5 (-1) = "" /\ Py.slice "abc" 0 9 = "abc".
Proof. split; reflexivity. Qed.

Example find_from_start : Py.find "```" "a```b```" 4 = 5.
Proof. reflexivity. Qed.

Example find_from_minus_one :
  Py.find "]" "[a]" (-1) = 2 /\ Py.find "]" "[a" (-1) = -1.
Proof. split; reflexivity. Qed.

Example rfind_window_excludes_stop : Py.rfind "b" "abcb" 1 (-1) = 1.
Proof. reflexivity. Qed.

Example replace_is_global_and_ordered :
  Py.replace "aa" "b" "aaa" = "ba" /\ Py.replace ".git" "" "a.git.git" = "a".
Proof. split; reflexivity. Qed.

Example split_keeps_empty_segments :
  Py.split "/" "a//b" = ["a" : str; "" : str; "b" : str].
Proof. reflexivity. Qed.

Example strip_and_lower :
  Py.strip "  x y  " = "x y" /\ Py.lower "# TODO" = "# todo".
Proof. split; reflexivity. Qed.

Example decoder_samples :
  Json.json_loads (txt "{'a': [1, 2.5, null], 'a': 'x'}")
  = Loaded (VDict [("a" : str, VStr "x")])
  /\ Json.json_loads (txt "{'a': 1,}") = JSONDecodeError
  /\ Json.json_loads "01" = JSONDecodeError.
Proof. repeat split. Qed.

Section StringFacts.

Implicit Types (p s t x r : str) (i : Z) (k n : nat).

Lemma starts_with_app p r : Py.starts_with p (p ++ r) = true.
Proof.
  induction p as [|c p IH]; simpl; [reflexivity|].
  now rewrite Ascii.eqb_refl, IH.
Qed.

Lemma starts_with_inv p s :
  Py.starts_with p s = true -> s = p ++ skipn (List.length p) s.
Proof.
  revert s; induction p as [|c p IH]; intros [|d s]; simpl; try easy.
  intros H. apply andb_prop in H as [Hc Hp].
  apply Ascii.eqb_eq in Hc. subst d. f_equal. now apply IH.
Qed.

Lemma starts_with_length p s :
  Py.starts_with p s = true -> (List.length p <= List.length s)%nat.
Proof.
  intros H. apply starts_with_inv in H. rewrite H, length_app. lia.
Qed.

Lemma starts_with_mono p x r :
  Py.starts_with p x = true -> Py.starts_with p (x ++ r) = true.
Proof.
  intros H. apply starts_with_inv in H. rewrite H, <- app_assoc.
  apply starts_with_app.
Qed.

Lemma starts_with_long p x r :
  (List.length p <= List.length x)%nat ->
  Py.starts_with p (x ++ r) = Py.starts_with p x.
Proof.
  revert x; induction p as [|c p IH]; intros [|d x]; simpl; try easy; try lia.
  intros H. rewrite IH by lia. reflexivity.
Qed.

Lemma starts_with_firstn p t k :
  Py.starts_with p (firstn k t) = true -> Py.starts_with p t = true.
Proof.
  intros H. rewrite <- (firstn_skipn k t). now apply starts_with_mono.
Qed.

Lemma find_at_index p s i :
  Py.find_at p s i =
  match index_of p s with
  | Some k => i + Z.of_nat k
  | None => -1
  end.
Proof.
  revert i; induction s as [|c s IH]; intros i; simpl.
  - destruct (Py.starts_with p []); [lia | reflexivity].
  - destruct (Py.starts_with p (c :: s)); [lia|].
    rewrite IH. destruct (index_of p s); simpl; [lia | reflexivity].
Qed.

Lemma index_of_fits p s k :
  index_of p s = Some k -> (k + List.length p <= List.length s)%nat.
Proof.
  revert k; induction s as [|c s IH]; intros k; simpl.
  - destruct (Py.starts_with p []) eqn:E; [|discriminate].
    intros [= <-]. apply starts_with_length in E. simpl in *. lia.
  - destruct (Py.starts_with p (c :: s)) eqn:E.
    + intros [= <-]. apply starts_with_length in E. simpl in *. lia.
    + destruct (index_of p s) as [k'|]; simpl; [|discriminate].
      intros [= <-]. specialize (IH k' eq_refl). lia.
Qed.

Lemma index_of_at p s k :
  index_of p s = Some k -> Py.starts_with p (skipn k s) = true.
Proof.
  revert k; induction s as [|c s IH]; intros k; simpl.
  - destruct (Py.starts_with p []) eqn:E; [|discriminate].
    intros [= <-]. exact E.
  - destruct (Py.starts_with p (c :: s)) eqn:E.
    + intros [= <-]. exact E.
    + destruct (index_of p s) as [k'|]; simpl; [|discriminate].
      intros [= <-]. now apply IH.
Qed.

(** An occurrence is found wherever it starts. *)
Lemma index_of_occurs p x r : exists k, index_of p (x ++ p ++ r) = Some k.
Proof.
  induction x as [|c x [k IH]]; simpl.
  - destruct r, p; simpl; try rewrite Ascii.eqb_refl; simpl; eauto;
      rewrite ?starts_with_app; eauto.
  - destruct (Py.starts_with p (c :: x ++ p ++ r)); eauto.
    rewrite IH. simpl. eauto.
Qed.

(** The first occurrence in a prefix is the first occurrence in the text. *)
Lemma index_of_app p x r k :
  index_of p x = Some k -> index_of p (x ++ r) = Some k.
Proof.
  revert k; induction x as [|c x IH]; intros k.
  - simpl. destruct (Py.starts_with p []) eqn:E; [|discriminate].
    intros [= <-]. destruct p; [|discriminate].
    destruct r; reflexivity.
  - intros H. change ((c :: x) ++ r) with (c :: (x ++ r)).
    cbn [index_of] in *.
    destruct (Py.starts_with p (c :: x)) eqn:E.
    + injection H as <-.
      assert (E' : Py.starts_with p (c :: x ++ r) = true)
        by apply (starts_with_mono p (c :: x) r E).
      now rewrite E'.
    + destruct (index_of p x) as [k'|] eqn:Ek; simpl in H; [|discriminate].
      injection H as <-.
      assert (E' : Py.starts_with p (c :: x ++ r) = false).
      { rewrite <- E. apply (starts_with_long p (c :: x) r).
        pose proof (index_of_fits _ _ _ Ek). simpl; lia. }
      rewrite E', (IH k' eq_refl). reflexivity.
Qed.

(** No occurrence in the text, none in a part of it. *)
Lemma index_of_none_part p x s r :
  index_of p (x ++ s ++ r) = None -> index_of p s = None.
Proof.
  intros H. destruct (index_of p s) as [k|] eqn:E; [|reflexivity].
  exfalso.
  pose proof (index_of_at _ _ _ E) as Hat.
  apply starts_with_inv in Hat.
  assert (Hs : s = firstn k s ++ p ++ skipn (List.length p) (skipn k s)).
  { rewrite <- Hat. symmetry. apply firstn_skipn. }
  rewrite Hs in H. rewrite <- !app_assoc in H.
  rewrite (app_assoc x) in H.
  destruct (index_of_occurs p (x ++ firstn k s)
              (skipn (List.length p) (skipn k s) ++ r)) as [k' Hk'].
  congruence.
Qed.

Lemma index_of_prefix_pattern p q s k :
  index_of (p ++ q) s = Some k -> exists k', index_of p s = Some k'.
Proof.
  intros H. pose proof (index_of_at _ _ _ H) as Hat.
  apply starts_with_inv in Hat.
  rewrite <- (firstn_skipn k s), Hat, <- app_assoc.
  apply index_of_occurs.
Qed.

(** Nothing occurs before the first occurrence. *)
Lemma index_of_firstn p t k :
  p <> [] -> index_of p t = Some k -> index_of p (firstn k t) = None.
Proof.
  intros Hp. revert k; induction t as [|c t IH]; intros k; simpl.
  - destruct p; [contradiction|]. discriminate.
  - destruct (Py.starts_with p (c :: t)) eqn:E.
    + intros [= <-]. simpl. destruct p; [contradiction | reflexivity].
    + destruct (index_of p t) as [k'|] eqn:Ek; simpl; [|discriminate].
      intros [= <-]. cbn [firstn index_of].
      destruct (Py.starts_with p (c :: firstn k' t)) eqn:E'.
      * apply (starts_with_firstn p (c :: t) (S k')) in E'. congruence.
      * now rewrite (IH k' eq_refl).
Qed.

Lemma len_nonneg s : 0 <= Py.len s.
Proof. unfold Py.len. lia. Qed.

Lemma find_from p s a :
  0 <= a <= Py.len s ->
  Py.find p s a =
  match index_of p (skipn (Z.to_nat a) s) with
  | Some k => a + Z.of_nat k
  | None => -1
  end.
Proof.
  intros Ha. unfold Py.find.
  destruct (Z.ltb_spec a 0); [lia|].
  destruct (Z.ltb_spec (Py.len s) a); [lia|].
  apply find_at_index.
Qed.

Lemma find_beyond p s a : Py.len s < a -> Py.find p s a = -1.
Proof.
  intros Ha. unfold Py.find. pose proof (len_nonneg s).
  destruct (Z.ltb_spec a 0); [lia|].
  destruct (Z.ltb_spec (Py.len s) a); [reflexivity | lia].
Qed.

Lemma find_zero p s :
  Py.find p s 0 =
  match index_of p s with
  | Some k => Z.of_nat k
  | None => -1
  end.
Proof.
  rewrite find_from by (pose proof (len_nonneg s); lia).
  simpl. destruct (index_of p s); reflexivity.
Qed.

Lemma contains_index p s :
  Py.contains p s =
  match index_of p s with Some _ => true | None => false end.
Proof.
  unfold Py.contains. rewrite find_zero.
  destruct (index_of p s) as [k|]; [|reflexivity].
  destruct (Z.eqb_spec (Z.of_nat k) (-1)); [lia | reflexivity].
Qed.

Lemma slice_inside s a b :
  0 <= a <= b -> b <= Py.len s ->
  Py.slice s a b = firstn (Z.to_nat (b - a)) (skipn (Z.to_nat a) s).
Proof.
  intros Ha Hb. unfold Py.slice, Py.adjust.
  destruct (Z.ltb_spec a 0); [lia|].
  destruct (Z.ltb_spec b 0); [lia|].
  now rewrite !Z.min_l by lia.
Qed.

Lemma slice_app x m r :
  Py.slice (x ++ m ++ r) (Py.len x) (Py.len x + Py.len m) = m.
Proof.
  pose proof (len_nonneg x). pose proof (len_nonneg m).
  rewrite slice_inside.
  - unfold Py.len.
    replace (Z.to_nat (Z.of_nat (List.length x) + Z.of_nat (List.length m)
                       - Z.of_nat (List.length x))) with (List.length m) by lia.
    rewrite Nat2Z.id, skipn_app, skipn_all, Nat.sub_diag. simpl.
    rewrite firstn_app, firstn_all, Nat.sub_diag. simpl. apply app_nil_r.
  - lia.
  - unfold Py.len in *. rewrite !length_app. lia.
Qed.

Lemma lstrip_by_suffix f s : exists a, s = a ++ Py.lstrip_by f s.
Proof.
  induction s as [|c s [a IH]]; simpl.
  - now exists [].
  - destruct (f c).
    + exists (c :: a). simpl. now f_equal.
    + now exists [].
Qed.

Lemma rstrip_by_prefix f s : exists b, s = Py.rstrip_by f s ++ b.
Proof.
  unfold Py.rstrip_by.
  destruct (lstrip_by_suffix f (rev s)) as [a Ha].
  exists (rev a).
  rewrite <- rev_app_distr, <- Ha. symmetry. apply rev_involutive.
Qed.

Lemma strip_part s : exists a b, s = a ++ Py.strip s ++ b.
Proof.
  unfold Py.strip.
  destruct (lstrip_by_suffix Py.isspace s) as [a Ha].
  destruct (rstrip_by_prefix Py.isspace (Py.lstrip_by Py.isspace s)) as [b Hb].
  exists a, b. now rewrite <- Hb.
Qed.

Lemma contains_strip p s :
  Py.contains p s = false -> Py.contains p (Py.strip s) = false.
Proof.
  rewrite !contains_index.
  destruct (index_of p s) eqn:E; [discriminate|]. intros _.
  destruct (strip_part s) as (a & b & Hs). rewrite Hs in E.
  now rewrite (index_of_none_part _ _ _ _ E).
Qed.

End StringFacts.

(** * The sanitizer (lines 133-144) *)

Lemma fenced_clean opener skip code inner :
  1 <= skip ->
  fenced opener skip code = Some inner ->
  Py.contains triple_backtick inner = false.
Proof.
  intros Hskip. unfold fenced.
  set (start := Py.find opener code 0 + skip).
  assert (Hstart : 0 <= start).
  { subst start. rewrite find_zero. destruct (index_of opener code); lia. }
  destruct (Z.eqb_spec (Py.find triple_backtick code start) (-1)) as [|Hend];
    [discriminate|].
  simpl. intros [= <-].
  destruct (Z.le_gt_cases start (Py.len code)) as [Hle|Hgt];
    [|now rewrite find_beyond in Hend].
  rewrite find_from in * by lia.
  destruct (index_of triple_backtick (skipn (Z.to_nat start) code)) as [k|] eqn:E;
    [|contradiction].
  pose proof (index_of_fits _ _ _ E) as Hfit. rewrite length_skipn in Hfit.
  change (List.length triple_backtick) with 3%nat in Hfit.
  apply contains_strip.
  rewrite slice_inside by (unfold Py.len in *; lia).
  replace (Z.to_nat (start + Z.of_nat k - start)) with k by lia.
  rewrite contains_index, index_of_firstn; [reflexivity | discriminate | exact E].
Qed.

Lemma untagged_of_clean code :
  Py.contains triple_backtick code = false ->
  Py.contains (triple_backtick ++ "python") code = false.
Proof.
  rewrite !contains_index.
  destruct (index_of (triple_backtick ++ "python") code) as [k|] eqn:E;
    [|reflexivity].
  destruct (index_of_prefix_pattern triple_backtick "python" code k) as [k' ->];
    [exact E | discriminate].
Qed.

Lemma sanitize_clean code :
  Py.contains triple_backtick code = false -> sanitize code = code.
Proof.
  intros H. unfold sanitize. now rewrite (untagged_of_clean code H), H.
Qed.

Lemma sanitize_cases x :
  sanitize x = x \/ Py.contains triple_backtick (sanitize x) = false.
Proof.
  unfold sanitize.
  destruct (Py.contains (triple_backtick ++ "python") x).
  - destruct (fenced (triple_backtick ++ "python") 9 x) as [inner|] eqn:Ef;
      [right | now left].
    eapply fenced_clean; [|exact Ef]; lia.
  - destruct (Py.contains triple_backtick x) eqn:Ebare; [|now left].
    destruct (fenced triple_backtick 3 x) as [inner|] eqn:Ef;
      [right | now left].
    eapply fenced_clean; [|exact Ef]; lia.
Qed.

(** C7: the sanitizer is idempotent, and it returns content that holds no
    fence unchanged. *)
Theorem sanitize_idempotent :
  (forall x, sanitize (sanitize x) = sanitize x)
  /\ (forall x, Py.contains triple_backtick x = false -> sanitize x = x).
Proof.
  split; [|exact sanitize_clean].
  intros x. destruct (sanitize_cases x) as [E|E].
  - now rewrite !E.
  - now apply sanitize_clean.
Qed.

(** * The payload (lines 80-89) *)

Lemma first_at p x :
  Py.find p (x ++ p) 0 = Py.len x ->
  forall r, index_of p (x ++ p ++ r) = Some (List.length x).
Proof.
  rewrite find_zero. intros H r.
  destruct (index_of p (x ++ p)) as [k|] eqn:E;
    [|pose proof (len_nonneg x); lia].
  unfold Py.len in H. apply Nat2Z.inj in H. subst k.
  rewrite app_assoc. now apply index_of_app.
Qed.

Lemma absent p s : Py.contains p s = false -> index_of p s = None.
Proof.
  rewrite contains_index. now destruct (index_of p s).
Qed.

Lemma len_app x y : Py.len (x ++ y) = Py.len x + Py.len y.
Proof. unfold Py.len. rewrite length_app. lia. Qed.

(** The search from the end of [x] looks at what follows [x]. *)
Lemma find_after p x y :
  Py.find p (x ++ y) (Py.len x) =
  match index_of p y with
  | Some k => Py.len x + Z.of_nat k
  | None => -1
  end.
Proof.
  pose proof (len_nonneg x). pose proof (len_nonneg y).
  rewrite find_from by (rewrite len_app; lia).
  unfold Py.len at 1. rewrite Nat2Z.id, skipn_app, skipn_all, Nat.sub_diag.
  reflexivity.
Qed.

(** A slice that stops at [-1] drops the last character. *)
Lemma slice_to_last x y :
  Py.slice (x ++ y) (Py.len x) (-1) = removelast y.
Proof.
  pose proof (len_nonneg x). pose proof (len_nonneg y).
  unfold Py.slice, Py.adjust. rewrite len_app.
  destruct (Z.ltb_spec (Py.len x) 0); [lia|].
  change (-1 <? 0) with true. cbv iota.
  rewrite Z.min_l by lia.
  unfold Py.len at 4. rewrite Nat2Z.id, skipn_app, skipn_all, Nat.sub_diag.
  cbn [skipn app].
  replace (Z.to_nat (Z.max 0 (-1 + (Py.len x + Py.len y)) - Py.len x))
    with (pred (List.length y)) by (unfold Py.len; lia).
  symmetry. apply removelast_firstn_len.
Qed.


Lemma unclosed_payload opener pre rest :
  Py.find opener (pre ++ opener) 0 = Py.len pre ->
  Py.contains triple_backtick rest = false ->
  let text := pre ++ opener ++ rest in
  let start := Py.find opener text 0 + Py.len opener in
  Py.slice text start (Py.find triple_backtick text start) = removelast rest.
Proof.
  intros Hpre Hrest text start.
  assert (Hstart : start = Py.len (pre ++ opener)).
  { subst start text. rewrite find_zero.
    rewrite <- (app_nil_r rest), (first_at _ _ Hpre), len_app.
    reflexivity. }
  rewrite Hstart. subst text.
  rewrite (app_assoc pre opener).
  rewrite find_after, (absent _ _ Hrest).
  apply slice_to_last.
Qed.

Lemma contains_occurs p x r : Py.contains p (x ++ p ++ r) = true.
Proof.
  rewrite contains_index. now destruct (index_of_occurs p x r) as [k ->].
Qed.




(** C10, as stated, fails: after the opener of this response, and before
    its final character, stands the text of three characters [ {}], and the
    payload is the two characters [{}]. *)
Lemma unclosed_payload_is_trimmed :
  let text : str := "```json {} " in
  Py.find triple_backtick text 7 = -1
  /\ Py.slice text 7 (-1) = " {}"
  /\ json_str text = "{}"
  /\ str_eqb (json_str text) " {}" = false.
Proof. repeat split. Qed.

(** C10, amended: when no fence follows the opener, the payload is the text
    after the opener without the last character of the response, trimmed;
    the extraction returns and does not raise. *)
Theorem json_str_unclosed :
  (forall pre rest,
      Py.find (triple_backtick ++ "json") (pre ++ triple_backtick ++ "json") 0
      = Py.len pre ->
      Py.contains triple_backtick rest = false ->
      json_str (pre ++ (triple_backtick ++ "json") ++ rest)
      = Py.strip (removelast rest))
  /\ (forall pre rest,
      Py.contains (triple_backtick ++ "json") (pre ++ triple_backtick ++ rest)
      = false ->
      Py.find triple_backtick (pre ++ triple_backtick) 0 = Py.len pre ->
      Py.contains triple_backtick rest = false ->
      json_str (pre ++ triple_backtick ++ rest) = Py.strip (removelast rest)).
Proof.
  split.
  - intros pre rest Hpre Hrest. unfold json_str.
    rewrite <- (app_nil_r rest) at 1. rewrite contains_occurs. f_equal.
    exact (unclosed_payload _ pre rest Hpre Hrest).
  - intros pre rest Htag Hpre Hrest. unfold json_str. rewrite Htag.
    rewrite <- (app_nil_r rest) at 1. rewrite contains_occurs. f_equal.
    exact (unclosed_payload _ pre rest Hpre Hrest).
Qed.

Lemma json_str_unclosed_witness :
  json_str ("```json {} " : str) = "{}"
  /\ json_str ("x ```[1], " : str) = "[1],".
Proof.
  destruct json_str_unclosed as (Htag & Hbare).
  split.
  - exact (Htag "" " {} " eq_refl eq_refl).
  - exact (Hbare "x " "[1], " eq_refl eq_refl eq_refl).
Defined.

(** * The validator (lines 159-191) *)

Lemma contains_split p s :
  Py.contains p s = true -> exists a b, s = a ++ p ++ b.
Proof.
  rewrite contains_index.
  destruct (index_of p s) as [k|] eqn:E; [intros _ | discriminate].
  apply index_of_at, starts_with_inv in E.
  exists (firstn k s), (skipn (List.length p) (skipn k s)).
  rewrite <- E. symmetry. apply firstn_skipn.
Qed.

Lemma contains_trans q p s :
  Py.contains q p = true -> Py.contains p s = true -> Py.contains q s = true.
Proof.
  intros Hq Hp.
  apply contains_split in Hq as (a & b & ->).
  apply contains_split in Hp as (a' & b' & ->).
  rewrite <- !app_assoc, (app_assoc a').
  apply contains_occurs.
Qed.

Lemma contains_lower p s :
  Py.contains p s = true -> Py.contains (Py.lower p) (Py.lower s) = true.
Proof.
  intros H. apply contains_split in H as (a & b & ->).
  unfold Py.lower. rewrite !map_app. apply contains_occurs.
Qed.

Lemma find_first_some {A} (f : A -> bool) l x :
  In x l -> f x = true -> exists y, List.find f l = Some y.
Proof.
  induction l as [|a l IH]; simpl; [easy|].
  intros [->|Hin] Hx.
  - rewrite Hx. eauto.
  - destruct (f a); eauto.
Qed.

Lemma find_all_none {A} (f : A -> bool) l :
  (forall x, In x l -> f x = false) -> List.find f l = None.
Proof.
  induction l as [|a l IH]; simpl; [easy|].
  intros H. rewrite (H a) by now left. apply IH. intros x Hx. apply H. now right.
Qed.

(** C8, as stated, fails: the phrase is in [fixed] and not, literally, in
    [original], which holds it in other letter case; the placeholder check
    passes, and so does the validation of this one-line comment. *)
Lemma exemption_ignores_case :
  let original : str := "# Your Code Here" in
  let fixed : str := "# your code here" in
  Py.contains "your code here" (Py.lower fixed) = true
  /\ Py.contains "your code here" original = false
  /\ find_placeholder original fixed = None
  /\ validate_fixed_code (fun _ _ => Compiled) original fixed "app.py"
     = Ok true.
Proof. repeat split. Qed.

(** C8, amended: [validate_fixed_code] rejects a [fixed] that holds, in any
    letter case, one of the five lower-case stub phrases when [original],
    lower-cased, does not hold it; a [fixed] holding your code here passes
    the placeholder check exactly when lower-cased [original] holds that
    phrase (provided [fixed] holds no stub phrase besides it and its part
    code here), as it does when [original] holds the phrase literally. *)
Theorem placeholder_check :
  (forall compile original fixed filename p,
      In p (firstn 5 placeholders) ->
      Py.contains p (Py.lower fixed) = true ->
      Py.contains p (Py.lower original) = false ->
      validate_fixed_code compile original fixed filename = Ok false)
  /\ (forall original fixed,
      Py.contains "your code here" (Py.lower fixed) = true ->
      find_placeholder original fixed = None ->
      Py.contains "your code here" (Py.lower original) = true)
  /\ (forall original fixed,
      (forall q, In q placeholders ->
                 Py.contains q (Py.lower fixed) = true ->
                 q = "your code here" \/ q = "code here") ->
      Py.contains "your code here" (Py.lower original) = true ->
      find_placeholder original fixed = None)
  /\ (forall original,
      Py.contains "your code here" original = true ->
      Py.contains "your code here" (Py.lower original) = true).
Proof.
  split; [|split; [|split]].
  - intros compile original fixed filename p Hin Hfixed Horiginal.
    unfold validate_fixed_code.
    destruct (find_first_some
                (fun placeholder =>
                   Py.contains placeholder (Py.lower fixed)
                   && negb (Py.contains placeholder (Py.lower original)))
                placeholders p) as [y Hy].
    + simpl in Hin. simpl. tauto.
    + now rewrite Hfixed, Horiginal.
    + unfold find_placeholder. now rewrite Hy.
  - intros original fixed Hfixed Hnone. unfold find_placeholder in Hnone.
    assert (Hp := find_none _ _ Hnone "your code here").
    cbv beta in Hp. rewrite Hfixed in Hp.
    destruct (Py.contains "your code here" (Py.lower original));
      [reflexivity|].
    symmetry. apply Hp. simpl. tauto.
  - intros original fixed Honly Horiginal. unfold find_placeholder.
    apply find_all_none. intros q Hq.
    destruct (Py.contains q (Py.lower fixed)) eqn:Eq; [|reflexivity].
    destruct (Honly q Hq Eq) as [->| ->].
    + now rewrite Horiginal.
    + rewrite (contains_trans "code here" "your code here" _ eq_refl Horiginal).
      reflexivity.
  - intros original H. exact (contains_lower "your code here" original H).
Qed.

Lemma placeholder_check_witness :
  validate_fixed_code (fun _ _ => Compiled) "x = 1" "# Insert Code" "app.py"
  = Ok false
  /\ Py.contains "your code here" (Py.lower ("# your code here" : str)) = true
  /\ find_placeholder "# your code here" "# Your Code Here" = None.
Proof.
  destruct placeholder_check as (Hreject & Honly_if & Hif & Hliteral).
  split; [|split].
  - apply (Hreject _ _ _ _ "insert code"); [simpl; tauto | reflexivity..].
  - apply (Honly_if "# your code here" "# your code here"); reflexivity.
  - apply Hif; [|apply Hliteral; reflexivity].
    intros q Hq Hin. simpl in Hq.
    repeat (destruct Hq as [<-|Hq]); try contradiction;
      first [ left; reflexivity | right; reflexivity
            | vm_compute in Hin; discriminate Hin ].
Defined.

(** The marker of the last placeholder is in upper case and is looked for in
    lower-cased text, where no upper-case T stands: the loop never returns on
    it. *)
Lemma lower_char_not_T c : Ascii.eqb (Py.lower_char c) "T" = false.
Proof. destruct c as [[] [] [] [] [] [] [] []]; reflexivity. Qed.

Lemma todo_marker_never_matches s : Py.contains "# TODO" (Py.lower s) = false.
Proof.
  destruct (Py.contains "# TODO" (Py.lower s)) eqn:E; [|reflexivity].
  apply contains_split in E as (a & b & E).
  assert (Hin : In "T"%char (Py.lower s)).
  { rewrite E. apply in_or_app. right. simpl. tauto. }
  unfold Py.lower in Hin. apply in_map_iff in Hin as (c & Hc & _).
  pose proof (lower_char_not_T c) as Hne. rewrite Hc in Hne. discriminate.
Qed.

(** * The repository identifier (lines 197-205) *)

(** C9: the source removes every occurrence of the four characters, not a
    suffix: a repository named my.github.io is resolved as myhub.io. *)
Theorem git_infix_is_removed :
  resolve_repo "https://github.com/octocat/my.github.io"
  = Some ("octocat" : str, "myhub.io" : str).
Proof. reflexivity. Qed.

Lemma git_suffix_is_removed :
  resolve_repo "https://github.com/octocat/hello-world.git/"
  = Some ("octocat" : str, "hello-world" : str).
Proof. reflexivity. Qed.

Lemma invalid_identifier_iff repo_url :
  resolve_repo repo_url = None <-> (List.length (repo_parts repo_url) < 2)%nat.
Proof.
  unfold resolve_repo.
  destruct (repo_parts repo_url) as [|owner [|repo_name rest]]; simpl;
    split; intros H; try reflexivity; try discriminate; lia.
Qed.

(** * The parser (lines 73-157) *)

Lemma find_bounds p s a :
  0 <= a -> Py.find p s a <> -1 ->
  a <= Py.find p s a /\ Py.find p s a + Py.len p <= Py.len s.
Proof.
  intros Ha Hr.
  destruct (Z.le_gt_cases a (Py.len s)) as [Hle|Hgt];
    [|now rewrite find_beyond in Hr].
  rewrite find_from in * by lia.
  destruct (index_of p (skipn (Z.to_nat a) s)) as [k|] eqn:E; [|easy].
  apply index_of_fits in E. rewrite length_skipn in E.
  unfold Py.len in *. lia.
Qed.

(** The loop of lines 110-118 breaks before its fuel is spent. *)
Lemma issues_loop_breaks fuel issues_text current issues :
  0 <= current ->
  Z.max 0 (Py.len issues_text - current) < Z.of_nat fuel ->
  exists found, issues_loop fuel issues_text current issues = Some found.
Proof.
  revert current issues.
  induction fuel as [|fuel IH]; intros current issues Hc Hfuel; [lia|].
  - cbn [issues_loop].
    destruct (Z.eqb_spec (Py.find [dq] issues_text current) (-1)) as [|H1];
      [eauto|].
    destruct (find_bounds _ _ _ Hc H1) as [Hq1 Hq1'].
    set (q1 := Py.find [dq] issues_text current) in *.
    destruct (Z.eqb_spec (Py.find [dq] issues_text (q1 + 1)) (-1)) as [|H2];
      [eauto|].
    assert (Hc1 : 0 <= q1 + 1) by lia.
    destruct (find_bounds _ _ _ Hc1 H2) as [Hq2 Hq2'].
    apply IH; [lia|].
    change (Py.len [dq]) with 1 in *. lia.
Qed.

Lemma issues_loop_terminates issues_text :
  exists found,
    issues_loop (S (List.length issues_text)) issues_text 0 [] = Some found.
Proof.
  apply issues_loop_breaks; [lia|]. unfold Py.len. lia.
Qed.

Lemma str_eqb_refl a : str_eqb a a = true.
Proof.
  induction a as [|c a IH]; simpl; [reflexivity|].
  now rewrite Ascii.eqb_refl.
Qed.

Lemma str_eqb_eq a b : str_eqb a b = true -> a = b.
Proof.
  revert b; induction a as [|c a IH]; intros [|d b]; simpl; try easy.
  intros H. apply andb_prop in H as [Hc Hab].
  apply Ascii.eqb_eq in Hc. subst d. f_equal. now apply IH.
Qed.

Lemma dict_get_set_same k v d : dict_get k (dict_set k v d) = Some v.
Proof.
  induction d as [|[k' v'] d IH]; simpl.
  - now rewrite str_eqb_refl.
  - destruct (str_eqb k k') eqn:E; simpl; now rewrite E.
Qed.

Lemma dict_get_set_other k k' v d :
  str_eqb k k' = false -> dict_get k (dict_set k' v d) = dict_get k d.
Proof.
  intros Hk. induction d as [|[k'' v''] d IH]; simpl.
  - now rewrite Hk.
  - destruct (str_eqb k' k'') eqn:E; simpl.
    + apply str_eqb_eq in E. subst k''. now rewrite Hk.
    + now rewrite IH.
Qed.

(** C1, as stated, fails: the payload [true] decodes, to a boolean, and the
    membership test of line 133 raises on it. *)
Lemma parse_llm_response_raises :
  Json.json_loads (json_str "true") = Loaded (VBool true)
  /\ parse_llm_response Json.json_loads "true" = Raise TypeError.
Proof. split; reflexivity. Qed.

Lemma report_well_typed d :
  well_typed d = true -> report (VDict d) = Ok (VDict d).
Proof.
  unfold well_typed, report, get_default, dict_has.
  destruct (dict_get "fixed_code" d) as [[]|];
    destruct (dict_get "issues_found" d) as [[]|];
    try discriminate; intros _; cbn;
    repeat match goal with |- context [if ?b then _ else _] => destruct b end;
    reflexivity.
Qed.

Lemma parse_fallback json_loads response_text :
  json_loads (json_str response_text) = JSONDecodeError ->
  exists d,
    parse_llm_response json_loads response_text = Ok (VDict d)
    /\ dict_get "has_issues" d
       = Some (VBool (manual_has_issues (json_str response_text)))
    /\ dict_get "issues_found" d
       = option_map (fun issues => VList (map VStr issues))
           (manual_issues (json_str response_text))
    /\ dict_get "fixed_code" d
       = option_map (fun c => VStr (sanitize c))
           (manual_fixed_code (json_str response_text)).
Proof.
  intros H. unfold parse_llm_response. rewrite H. cbn [bind].
  unfold manual_parse.
  destruct (manual_issues (json_str response_text)) as [issues|];
    destruct (manual_fixed_code (json_str response_text)) as [code|];
    cbn; try destruct (sanitize code);
    eexists; repeat split; reflexivity.
Qed.

Lemma parse_decoded json_loads response_text d :
  json_loads (json_str response_text) = Loaded (VDict d) ->
  well_typed d = true ->
  exists d',
    parse_llm_response json_loads response_text = Ok (VDict d')
    /\ dict_get "fixed_code" d'
       = match dict_get "fixed_code" d with
         | Some (VStr c) => Some (VStr (sanitize c))
         | other => other
         end
    /\ forall k, str_eqb k "fixed_code" = false ->
                 dict_get k d' = dict_get k d.
Proof.
  intros H Hd. unfold parse_llm_response. rewrite H. cbn [bind].
  unfold sanitize_result, py_in, bind, dict_has, get_default.
  destruct (dict_get "fixed_code" d) as [code|] eqn:Ecode.
  - assert (exists c, code = VStr c) as [c ->].
    { unfold well_typed in Hd. rewrite Ecode in Hd.
      destruct code; try discriminate. eauto. }
    exists (dict_set "fixed_code" (VStr (sanitize c)) d).
    split; [|split].
    + apply report_well_typed. unfold well_typed in *.
      rewrite dict_get_set_same, dict_get_set_other by reflexivity.
      now rewrite Ecode in Hd.
    + apply dict_get_set_same.
    + intros k Hk. now apply dict_get_set_other.
  - exists d. split; [|split].
    + now apply report_well_typed.
    + exact Ecode.
    + reflexivity.
Qed.

(** A decoded value that is not an object makes the parser raise: the
    membership test of line 133 or the subscript of line 134 raises
    [TypeError], and otherwise [result.get] of line 147 raises
    [AttributeError]. *)
Lemma parse_not_object json_loads response_text v :
  json_loads (json_str response_text) = Loaded v ->
  (forall d, v <> VDict d) ->
  parse_llm_response json_loads response_text = Raise TypeError
  \/ parse_llm_response json_loads response_text = Raise AttributeError.
Proof.
  intros H Hv. unfold parse_llm_response. rewrite H. cbn [bind].
  destruct v as [| | | |s|l|d];
    try (left; reflexivity); [| |now contradiction (Hv d)];
    unfold sanitize_result; cbn [py_in bind];
    match goal with |- context [if ?b then _ else _] => destruct b end;
    [left|right|left|right]; reflexivity.
Qed.

(** An exception of [json.loads] other than [JSONDecodeError] is not caught
    by line 94. *)
Lemma parse_propagates json_loads response_text e :
  json_loads (json_str response_text) = LoadsRaised e ->
  parse_llm_response json_loads response_text = Raise e.
Proof.
  intros H. unfold parse_llm_response. now rewrite H.
Qed.

(** C1, amended: when [json.loads] raises [JSONDecodeError],
    [parse_llm_response] returns a dict: [has_issues] is the substring test,
    and [issues_found] and [fixed_code] are set exactly when the scan of
    lines 103-131 finds them (a field that is not set is left to the default
    of the caller's [get]).  When decoding gives an object whose
    [fixed_code], if present, is a string and whose [issues_found], if
    present, is a list, it returns that object with [fixed_code] sanitized.
    The loop over the issues always ends.  When decoding gives a value that
    is not an object, the parser raises [TypeError] or [AttributeError], and
    when [json.loads] raises another exception, the parser raises it. *)
Theorem parse_llm_response_returns json_loads response_text :
  (json_loads (json_str response_text) = JSONDecodeError ->
   exists d,
     parse_llm_response json_loads response_text = Ok (VDict d)
     /\ dict_get "has_issues" d
        = Some (VBool (manual_has_issues (json_str response_text)))
     /\ dict_get "issues_found" d
        = option_map (fun issues => VList (map VStr issues))
            (manual_issues (json_str response_text))
     /\ dict_get "fixed_code" d
        = option_map (fun c => VStr (sanitize c))
            (manual_fixed_code (json_str response_text)))
  /\ (forall d,
      json_loads (json_str response_text) = Loaded (VDict d) ->
      well_typed d = true ->
      exists d',
        parse_llm_response json_loads response_text = Ok (VDict d')
        /\ dict_get "fixed_code" d'
           = match dict_get "fixed_code" d with
             | Some (VStr c) => Some (VStr (sanitize c))
             | other => other
             end
        /\ forall k, str_eqb k "fixed_code" = false ->
                     dict_get k d' = dict_get k d)
  /\ (forall issues_text,
      exists issues,
        issues_loop (S (List.length issues_text)) issues_text 0 []
        = Some issues)
  /\ (forall v,
      json_loads (json_str response_text) = Loaded v ->
      (forall d, v <> VDict d) ->
      parse_llm_response json_loads response_text = Raise TypeError
      \/ parse_llm_response json_loads response_text = Raise AttributeError)
  /\ (forall e,
      json_loads (json_str response_text) = LoadsRaised e ->
      parse_llm_response json_loads response_text = Raise e).
Proof.
  split; [|split; [|split; [|split]]].
  - apply parse_fallback.
  - apply parse_decoded.
  - exact issues_loop_terminates.
  - apply parse_not_object.
  - apply parse_propagates.
Qed.

Lemma parse_llm_response_returns_witness :
  (exists d,
      parse_llm_response Json.json_loads
        (txt "{'has_issues': true, 'issues_found': ['a'], 'fixed_code': 'x = 1' oops}")
      = Ok (VDict d)
      /\ dict_get "fixed_code" d = Some (VStr "x = 1"))
  /\ (exists d',
      parse_llm_response Json.json_loads
        (txt "{'has_issues': false, 'issues_found': [], 'fixed_code': ''}")
      = Ok (VDict d')
      /\ dict_get "has_issues" d' = Some (VBool false))
  /\ (parse_llm_response Json.json_loads (txt "['fixed_code']")
      = Raise TypeError
      \/ parse_llm_response Json.json_loads (txt "['fixed_code']")
         = Raise AttributeError)
  /\ parse_llm_response (fun _ => LoadsRaised OtherException) "{}"
     = Raise OtherException.
Proof.
  split; [|split; [|split]].
  - destruct (parse_llm_response_returns Json.json_loads
                (txt "{'has_issues': true, 'issues_found': ['a'], 'fixed_code': 'x = 1' oops}"))
      as (Hfallback & _ & _).
    destruct (Hfallback eq_refl) as (d & Hd & _ & _ & Hcode).
    exists d. split; [exact Hd | exact Hcode].
  - destruct (parse_llm_response_returns Json.json_loads
                (txt "{'has_issues': false, 'issues_found': [], 'fixed_code': ''}"))
      as (_ & Hdecoded & _).
    destruct (Hdecoded _ eq_refl eq_refl) as (d' & Hd' & _ & Hrest).
    exists d'. split; [exact Hd' | exact (Hrest "has_issues" eq_refl)].
  - destruct (parse_llm_response_returns Json.json_loads
                (txt "['fixed_code']"))
      as (_ & _ & _ & Hvalue & _).
    apply (Hvalue (VList [VStr "fixed_code"]) eq_refl). discriminate.
  - destruct (parse_llm_response_returns
                (fun _ => LoadsRaised OtherException) "{}")
      as (_ & _ & _ & _ & Hraised).
    exact (Hraised OtherException eq_refl).
Defined.

(** C2: in this payload no quote follows the key, the search of line 123
    answers -1, and [quote_start] is 0: the parser reports as [fixed_code]
    the text of the payload from its first character up to the closing
    quote of the key itself. *)
Theorem fabricated_fixed_code :
  let payload := txt "{'has_issues': true, 'fixed_code': }" in
  Json.json_loads (json_str payload) = JSONDecodeError
  /\ Py.find (quoted "fixed_code") payload 0 = 21
  /\ quote_start payload 21 = 0
  /\ quote_end payload 21 = 32
  /\ parse_llm_response Json.json_loads payload
     = Ok (VDict [ ("has_issues" : str, VBool true);
                   ("fixed_code" : str,
                    VStr (txt "{'has_issues': true, 'fixed_code")) ]).
Proof. repeat split. Qed.

(** * The orchestrator (lines 193-313) *)

Section Runs.

Variable json_loads : str -> loads_result.
Variable compile : str -> str -> compile_result.
Variable py_str : value -> str.
Variable w : collaborators.
Variables repo_url file_path base_branch original_content analysis : str.
Hypothesis Hreach :
  reaches_parser w repo_url file_path original_content analysis.

(** A run that reaches the parser is what [diagnose_and_fix] makes of it,
    after the two look-ups. *)
Lemma clone_and_fix_reaching :
  exists owner repo_name,
    clone_and_fix json_loads compile py_str w repo_url file_path base_branch
    = (fst (diagnose_and_fix json_loads compile py_str w file_path
              base_branch original_content),
       GetRepo (owner ++ "/" ++ repo_name)
       :: CloneFrom ("https://github.com/" ++ owner ++ "/" ++ repo_name)
       :: snd (diagnose_and_fix json_loads compile py_str w file_path
                 base_branch original_content)).
Proof.
  destruct Hreach as (owner & repo_name & Hres & Hget & Hclone & Hpath
                      & Hread & _).
  exists owner, repo_name. unfold clone_and_fix, attempt.
  now rewrite Hres, Hget, Hclone, Hpath, Hread.
Qed.

(** A run in which the parser returns a diagnosis without a usable fix
    stops before the validator, after the three read-only calls. *)
Lemma diagnose_without_fix result :
  parse_llm_response json_loads analysis = Ok (VDict result) ->
  truthy (get_default "has_issues" (VBool false) result)
  && truthy (get_default "fixed_code" (VStr []) result) = false ->
  diagnose_and_fix json_loads compile py_str w file_path base_branch
    original_content
  = (if truthy (get_default "has_issues" (VBool false) result)
     then NoFixProvided else NoIssues,
     [CreateCompletion (prompt_head ++ original_content ++ prompt_tail)]).
Proof.
  destruct Hreach as (owner & repo_name & _ & _ & _ & _ & _ & Hgroq & Hne).
  intros Hparse Hfalsy. unfold diagnose_and_fix, analyze_code.
  rewrite Hgroq. destruct analysis as [|c rest]; [contradiction|].
  rewrite Hparse.
  destruct (truthy (get_default "has_issues" (VBool false) result));
    [|reflexivity].
  cbn [andb] in Hfalsy. now rewrite Hfalsy.
Qed.

End Runs.

(** C5: a run whose parsed diagnosis has a false (or falsy, or missing)
    [has_issues] ends in [NoIssues], and none of the calls it made writes a
    file, creates a branch, stages, commits, pushes or opens a pull
    request. *)
Theorem no_issues_no_side_effects json_loads compile py_str w
  repo_url file_path base_branch original_content analysis result :
  reaches_parser w repo_url file_path original_content analysis ->
  parse_llm_response json_loads analysis = Ok (VDict result) ->
  truthy (get_default "has_issues" (VBool false) result) = false ->
  let run :=
    clone_and_fix json_loads compile py_str w repo_url file_path base_branch
  in
  fst run = NoIssues /\ filter mutates (snd run) = [].
Proof.
  intros Hreach Hparse Hfalse run. subst run.
  destruct (clone_and_fix_reaching json_loads compile py_str w repo_url
              file_path base_branch original_content analysis Hreach)
    as (owner & repo_name & ->).
  rewrite (diagnose_without_fix json_loads compile py_str w repo_url file_path
             base_branch original_content analysis Hreach result Hparse)
    by now rewrite Hfalse.
  rewrite Hfalse. split; reflexivity.
Qed.

(** Scenario A of the specification. *)
Lemma no_issues_no_side_effects_witness :
  let analysis :=
    txt "{'has_issues': false, 'issues_found': [], 'fixed_code': ''}" in
  let run :=
    clone_and_fix Json.json_loads (fun _ _ => Compiled) (fun _ => [])
      (obliging "x = 1" analysis)
      "https://github.com/octocat/hello-world" "app.py" "main" in
  fst run = NoIssues /\ filter mutates (snd run) = [].
Proof.
  intros analysis.
  apply (no_issues_no_side_effects Json.json_loads (fun _ _ => Compiled)
           (fun _ => []) (obliging "x = 1" analysis)
           "https://github.com/octocat/hello-world" "app.py" "main"
           "x = 1" analysis
           [ ("has_issues" : str, VBool false);
             ("issues_found" : str, VList []);
             ("fixed_code" : str, VStr []) ]).
  - exists ("octocat" : str), ("hello-world" : str).
    repeat split; try reflexivity. discriminate.
  - reflexivity.
  - reflexivity.
Defined.

Lemma find_lower_bound p s a : -1 <= Py.find p s a.
Proof.
  unfold Py.find.
  destruct (Z.ltb_spec a 0);
    match goal with |- context [if ?b then _ else _] => destruct b end;
    try lia; rewrite find_at_index;
    match goal with |- context [index_of ?p ?t] => destruct (index_of p t) end;
    lia.
Qed.

Lemma no_closing_quote json_str :
  quote_end json_str (Py.find (quoted "fixed_code") json_str 0) = -1 ->
  manual_fixed_code json_str = None.
Proof.
  intros H. unfold manual_fixed_code. rewrite H.
  destruct (negb (Py.find (quoted "fixed_code") json_str 0 =? -1));
    [|reflexivity].
  unfold quote_start.
  pose proof (find_lower_bound [dq] json_str
                (Py.find (quoted "fixed_code") json_str 0 + 13)).
  destruct (Z.ltb_spec
              (Py.find [dq] json_str
                 (Py.find (quoted "fixed_code") json_str 0 + 13) + 1) (-1));
    [lia | reflexivity].
Qed.

(** C4, as stated, fails: this response is cut inside the string of
    [fixed_code], strict decoding fails and no closing quote is found, but
    the letters of true are nowhere in it: the run ends in [NoIssues], not
    in [NoFixProvided]. *)
Lemma truncated_without_true :
  let analysis :=
    txt "{'has_issues': false, 'issues_found': [], 'fixed_code': 'x = 1" in
  let run :=
    clone_and_fix Json.json_loads (fun _ _ => Compiled) (fun _ => [])
      (obliging "x = 1" analysis)
      "https://github.com/octocat/hello-world" "app.py" "main" in
  Json.json_loads (json_str analysis) = JSONDecodeError
  /\ quote_end (json_str analysis)
       (Py.find (quoted "fixed_code") (json_str analysis) 0) = -1
  /\ parse_llm_response Json.json_loads analysis
     = Ok (VDict [ ("has_issues" : str, VBool false);
                   ("issues_found" : str, VList []) ])
  /\ fst run = NoIssues.
Proof. repeat split. Qed.

(** C4, amended: when strict decoding of the response fails and the search
    of line 125 finds no quote before the last closing brace, the parser
    returns a diagnosis without [fixed_code] whose [has_issues] is the
    substring test; the run ends in [NoFixProvided] when the payload holds
    the letters of true and in [NoIssues] when it does not, and makes no
    call that writes, branches, stages, commits, pushes or opens a pull
    request. *)
Theorem truncated_response_aborts json_loads compile py_str w
  repo_url file_path base_branch original_content analysis :
  reaches_parser w repo_url file_path original_content analysis ->
  json_loads (json_str analysis) = JSONDecodeError ->
  quote_end (json_str analysis)
    (Py.find (quoted "fixed_code") (json_str analysis) 0) = -1 ->
  let run :=
    clone_and_fix json_loads compile py_str w repo_url file_path base_branch
  in
  exists result,
    parse_llm_response json_loads analysis = Ok (VDict result)
    /\ dict_get "has_issues" result
       = Some (VBool (manual_has_issues (json_str analysis)))
    /\ dict_get "fixed_code" result = None
    /\ fst run = (if manual_has_issues (json_str analysis)
                  then NoFixProvided else NoIssues)
    /\ filter mutates (snd run) = [].
Proof.
  intros Hreach Hdecode Hquote run. subst run.
  destruct (parse_fallback json_loads analysis Hdecode)
    as (result & Hparse & Hhas & _ & Hcode).
  rewrite (no_closing_quote _ Hquote) in Hcode. cbn [option_map] in Hcode.
  exists result. repeat split; try assumption.
  all: destruct (clone_and_fix_reaching json_loads compile py_str w repo_url
                   file_path base_branch original_content analysis Hreach)
         as (owner & repo_name & ->).
  all: rewrite (diagnose_without_fix json_loads compile py_str w repo_url
                  file_path base_branch original_content analysis Hreach
                  result Hparse)
         by (unfold get_default; rewrite Hcode; cbn [truthy];
             apply andb_false_r).
  all: unfold get_default; rewrite Hhas; reflexivity.
Qed.

(** Scenario C of the specification. *)
Lemma truncated_response_aborts_witness :
  let analysis :=
    txt "{'has_issues': true, 'issues_found': ['a'], 'fixed_code': 'def f():" in
  let run :=
    clone_and_fix Json.json_loads (fun _ _ => Compiled) (fun _ => [])
      (obliging "x = 1" analysis)
      "https://github.com/octocat/hello-world" "app.py" "main" in
  fst run = NoFixProvided /\ filter mutates (snd run) = [].
Proof.
  intros analysis.
  destruct (truncated_response_aborts Json.json_loads (fun _ _ => Compiled)
              (fun _ => []) (obliging "x = 1" analysis)
              "https://github.com/octocat/hello-world" "app.py" "main"
              "x = 1" analysis)
    as (result & _ & _ & _ & Hout & Htrace).
  - exists ("octocat" : str), ("hello-world" : str).
    repeat split; try reflexivity. discriminate.
  - reflexivity.
  - reflexivity.
  - split; [exact Hout | exact Htrace].
Defined.

(** A response cut inside the string need not leave the search of line 125
    empty-handed: with a brace and an escaped quote in the code before the
    cut, the parser reports the head of the code as the fix. *)
Lemma truncated_with_inner_quote :
  let payload :=
    txt "{'has_issues': true, 'issues_found': ['a'], 'fixed_code': 's = \'hi\'\nd = {}\nprint(\'" in
  Json.json_loads payload = JSONDecodeError
  /\ manual_fixed_code payload = Some (txt "s = 'hi\").
Proof. split; reflexivity. Qed.

(** * The fallback scan on a payload that holds the three fields *)

Lemma rfind_at_none p y j : index_of p y = None -> Py.rfind_at p y j = -1.
Proof.
  revert j; induction y as [|d y IH]; intros j; simpl.
  - now destruct (Py.starts_with p []).
  - destruct (Py.starts_with p (d :: y)); [discriminate|].
    destruct (index_of p y); [discriminate|]. intros _.
    now rewrite IH.
Qed.

Lemma rfind_at_last c x y i :
  0 <= i -> index_of [c] y = None ->
  Py.rfind_at [c] (x ++ c :: y) i = i + Py.len x.
Proof.
  intros Hi Hy. revert i Hi; induction x as [|d x IH]; intros i Hi.
  - cbn [app Py.rfind_at]. rewrite (rfind_at_none _ _ _ Hy).
    cbn. rewrite Ascii.eqb_refl. unfold Py.len. simpl. lia.
  - cbn [app Py.rfind_at]. rewrite IH by lia.
    pose proof (len_nonneg x).
    destruct (Z.eqb_spec (i + 1 + Py.len x) (-1)); [lia|].
    unfold Py.len. simpl List.length. lia.
Qed.

Lemma rfind_window p x m r :
  Py.rfind p (x ++ m ++ r) (Py.len x) (Py.len x + Py.len m)
  = Py.rfind_at p m (Py.len x).
Proof.
  pose proof (len_nonneg x). pose proof (len_nonneg m).
  pose proof (len_nonneg r).
  unfold Py.rfind, Py.adjust. rewrite !len_app.
  destruct (Z.ltb_spec (Py.len x) 0); [lia|].
  destruct (Z.ltb_spec (Py.len x + Py.len m) 0); [lia|].
  rewrite Z.min_l by lia.
  destruct (Z.ltb_spec (Py.len x + Py.len m) (Py.len x)); [lia|].
  f_equal. unfold Py.len.
  replace (Z.to_nat (Z.of_nat (List.length x) + Z.of_nat (List.length m)
                     - Z.of_nat (List.length x))) with (List.length m) by lia.
  rewrite Nat2Z.id, skipn_app, skipn_all, Nat.sub_diag. simpl.
  rewrite firstn_app, firstn_all, Nat.sub_diag. simpl. apply app_nil_r.
Qed.

Lemma rfind0_last c x y :
  index_of [c] y = None -> Py.rfind0 [c] (x ++ c :: y) = Py.len x.
Proof.
  intros Hy. unfold Py.rfind0.
  pose proof (rfind_window [c] [] (x ++ c :: y) []) as H.
  rewrite app_nil_r in H. cbn [app] in H.
  change (Py.len []) with 0 in H. rewrite Z.add_0_l in H.
  rewrite H, rfind_at_last by (lia || assumption). lia.
Qed.

(** Searching and slicing inside a known stretch [chunk] of the text. *)
Lemma find_in_chunk p head chunk rest a k :
  (a <= List.length chunk)%nat ->
  index_of p (skipn a chunk) = Some k ->
  Py.find p (head ++ chunk ++ rest) (Py.len head + Z.of_nat a)
  = Py.len head + Z.of_nat a + Z.of_nat k.
Proof.
  intros Ha Hk.
  rewrite <- (firstn_skipn a chunk) at 1.
  rewrite <- app_assoc, app_assoc.
  replace (Py.len head + Z.of_nat a) with (Py.len (head ++ firstn a chunk))
    by (rewrite len_app; unfold Py.len; rewrite length_firstn; lia).
  rewrite find_after, (index_of_app _ _ _ _ Hk). reflexivity.
Qed.

Lemma slice_in_chunk head chunk rest a b :
  (a <= b <= List.length chunk)%nat ->
  Py.slice (head ++ chunk ++ rest) (Py.len head + Z.of_nat a)
    (Py.len head + Z.of_nat b)
  = firstn (b - a) (skipn a chunk).
Proof.
  intros Hab.
  rewrite <- (firstn_skipn a chunk) at 1.
  rewrite <- (firstn_skipn (b - a) (skipn a chunk)) at 1.
  rewrite <- !app_assoc, app_assoc.
  replace (Py.len head + Z.of_nat a) with (Py.len (head ++ firstn a chunk))
    by (rewrite len_app; unfold Py.len; rewrite length_firstn; lia).
  replace (Py.len head + Z.of_nat b)
    with (Py.len (head ++ firstn a chunk)
          + Py.len (firstn (b - a) (skipn a chunk)))
    by (rewrite len_app; unfold Py.len;
        rewrite !length_firstn, length_skipn; lia).
  apply slice_app.
Qed.

Lemma has_issues_of_field json_str :
  Py.contains (txt "'has_issues': true") json_str = true ->
  manual_has_issues json_str = true.
Proof.
  intros H. unfold manual_has_issues.
  apply contains_lower in H.
  exact (contains_trans "true" (Py.lower (txt "'has_issues': true")) _
           eq_refl H).
Qed.

Lemma issues_of_field head rest :
  Py.find (quoted "issues_found") (head ++ quoted "issues_found") 0
  = Py.len head ->
  manual_issues (head ++ issues_field ++ rest) = Some ["a" : str; "b" : str].
Proof.
  intros Hkey. unfold manual_issues.
  assert (Hstart : Py.find (quoted "issues_found")
                     (head ++ issues_field ++ rest) 0 = Py.len head).
  { change issues_field with (quoted "issues_found" ++ txt ": ['a','b']").
    rewrite <- app_assoc, find_zero, (first_at _ _ Hkey). reflexivity. }
  rewrite Hstart. pose proof (len_nonneg head).
  destruct (Z.eqb_spec (Py.len head) (-1)); [lia|]. cbn [negb].
  assert (Hopen : Py.find "[" (head ++ issues_field ++ rest) (Py.len head)
                  = Py.len head + 16).
  { pose proof (find_in_chunk "[" head issues_field rest 0 16) as F.
    change (Z.of_nat 0) with 0 in F. change (Z.of_nat 16) with 16 in F.
    rewrite !Z.add_0_r in F. apply F; [simpl; lia | reflexivity]. }
  assert (Hclose : Py.find "]" (head ++ issues_field ++ rest)
                     (Py.len head + 16) = Py.len head + 24).
  { pose proof (find_in_chunk "]" head issues_field rest 16 8) as F.
    change (Z.of_nat 8) with 8 in F. change (Z.of_nat 16) with 16 in F.
    rewrite F; [lia | simpl; lia | reflexivity]. }
  assert (Htext : Py.slice (head ++ issues_field ++ rest)
                    (Py.len head + 16 + 1) (Py.len head + 24)
                  = txt "'a','b'").
  { pose proof (slice_in_chunk head issues_field rest 17 24) as F.
    change (Z.of_nat 17) with 17 in F. change (Z.of_nat 24) with 24 in F.
    replace (Py.len head + 16 + 1) with (Py.len head + 17) by lia.
    rewrite F; [reflexivity | simpl; lia]. }
  rewrite Hopen, Hclose, Htext.
  reflexivity.
Qed.

Lemma fixed_code_of_field pre body ws junk :
  Py.find (quoted "fixed_code") (pre ++ quoted "fixed_code") 0 = Py.len pre ->
  body <> [] ->
  Py.contains [dq] ws = false ->
  Py.contains "}" junk = false ->
  manual_fixed_code (pre ++ code_field_open ++ body ++ dq :: ws ++ "}" ++ junk)
  = Some (unescape body).
Proof.
  intros Hkey Hbody Hws Hjunk.
  set (rest := body ++ dq :: ws ++ "}" ++ junk).
  set (payload := pre ++ code_field_open ++ rest).
  pose proof (len_nonneg pre) as Hpre. pose proof (len_nonneg body) as Hlen.
  assert (Hstart : Py.find (quoted "fixed_code") payload 0 = Py.len pre).
  { subst payload.
    change code_field_open with (quoted "fixed_code" ++ txt ": '").
    rewrite <- app_assoc, find_zero, (first_at _ _ Hkey). reflexivity. }
  assert (Hqs : quote_start payload (Py.len pre)
                = Py.len (pre ++ code_field_open)).
  { unfold quote_start. subst payload.
    pose proof (find_in_chunk [dq] pre code_field_open rest 13 1) as F.
    change (Z.of_nat 13) with 13 in F. change (Z.of_nat 1) with 1 in F.
    rewrite F; [|simpl; lia | reflexivity].
    rewrite len_app. change (Py.len code_field_open) with 15. lia. }
  assert (Hqe : quote_end payload (Py.len pre)
                = Py.len (pre ++ code_field_open) + Py.len body).
  { unfold quote_end. rewrite Hqs. subst payload rest.
    assert (Hbrace : Py.rfind0 "}"
                       (pre ++ code_field_open ++ body ++ dq :: ws ++ "}" ++ junk)
                     = Py.len (pre ++ code_field_open)
                       + Py.len (body ++ dq :: ws)).
    { replace (pre ++ code_field_open ++ body ++ dq :: ws ++ "}" ++ junk)
        with (((pre ++ code_field_open) ++ body ++ dq :: ws)
              ++ "}"%char :: junk)
        by (rewrite <- !app_assoc; reflexivity).
      change (list_ascii_of_string "}") with ["}"%char].
      rewrite rfind0_last by now apply absent.
      apply len_app. }
    rewrite Hbrace.
    replace (pre ++ code_field_open ++ body ++ dq :: ws ++ "}" ++ junk)
      with ((pre ++ code_field_open) ++ (body ++ dq :: ws) ++ "}" ++ junk)
      by (rewrite <- !app_assoc; reflexivity).
    rewrite rfind_window, rfind_at_last; [reflexivity | |now apply absent].
    apply len_nonneg. }
  unfold manual_fixed_code. rewrite Hstart.
  destruct (Z.eqb_spec (Py.len pre) (-1)); [lia|]. cbn [negb].
  rewrite Hqs, Hqe.
  assert (Hpos : 0 < Py.len body).
  { destruct body; [contradiction|]. unfold Py.len. simpl. lia. }
  destruct (Z.ltb_spec (Py.len (pre ++ code_field_open))
              (Py.len (pre ++ code_field_open) + Py.len body)); [|lia].
  do 2 f_equal. subst payload rest.
  rewrite app_assoc. apply slice_app.
Qed.

(** C3, as stated, fails: the payload holds the three fields and does not
    decode, its last brace being cut off; the fallback recovers the two
    issues and no [fixed_code]. *)
Lemma fallback_misses_fixed_code :
  let payload :=
    txt "{'has_issues': true, 'issues_found': ['a','b'], 'fixed_code': 'x = 1'"
  in
  Json.json_loads (json_str payload) = JSONDecodeError
  /\ Py.contains (txt "'has_issues': true") payload = true
  /\ Py.contains (txt "'issues_found': ['a','b']") payload = true
  /\ Py.contains (txt "'fixed_code': 'x = 1'") payload = true
  /\ parse_llm_response Json.json_loads payload
     = Ok (VDict [ ("has_issues" : str, VBool true);
                   ("issues_found" : str,
                    VList [VStr "a"; VStr "b"]) ]).
Proof. repeat split. Qed.

(** C3, amended: let strict decoding fail on a payload that holds the field
    of has_issues with true and in which the key of the issues first occurs
    in the field with the two issues a and b, the key of the fix first
    occurs after it, followed by its opening quote, a non-empty [body], a
    quote, a stretch [ws] without quotes, a closing brace and a stretch
    [junk] without braces.  Then the fallback recovers [has_issues] as true,
    the issues a and b in this order, and as [fixed_code] the [body] with
    the three escapes replaced, trimmed and sanitized. *)
Theorem fallback_recovers_fields json_loads response_text
  head mid body ws junk :
  json_str response_text
  = head ++ issues_field ++ mid ++ code_field_open ++ body
    ++ dq :: ws ++ "}" ++ junk ->
  json_loads (json_str response_text) = JSONDecodeError ->
  Py.contains (txt "'has_issues': true") (json_str response_text) = true ->
  Py.find (quoted "issues_found") (head ++ quoted "issues_found") 0
  = Py.len head ->
  Py.find (quoted "fixed_code")
    ((head ++ issues_field ++ mid) ++ quoted "fixed_code") 0
  = Py.len (head ++ issues_field ++ mid) ->
  body <> [] ->
  Py.contains [dq] ws = false ->
  Py.contains "}" junk = false ->
  parse_llm_response json_loads response_text
  = Ok (VDict [ ("has_issues" : str, VBool true);
                ("issues_found" : str, VList [VStr "a"; VStr "b"]);
                ("fixed_code" : str, VStr (sanitize (unescape body))) ]).
Proof.
  intros Hshape Hdecode Htrue Hissues Hcode Hbody Hws Hjunk.
  unfold parse_llm_response. rewrite Hdecode. cbn [bind].
  unfold manual_parse.
  rewrite (has_issues_of_field _ Htrue), Hshape.
  rewrite (issues_of_field head _ Hissues).
  replace (head ++ issues_field ++ mid ++ code_field_open ++ body
           ++ dq :: ws ++ "}" ++ junk)
    with ((head ++ issues_field ++ mid) ++ code_field_open ++ body
          ++ dq :: ws ++ "}" ++ junk)
    by (rewrite <- !app_assoc; reflexivity).
  rewrite (fixed_code_of_field _ body ws junk Hcode Hbody Hws Hjunk).
  generalize (unescape body). intros code.
  cbn. now destruct (sanitize code).
Qed.

(** A payload that the unescaped quotes inside the fix keep from decoding. *)
Lemma fallback_recovers_fields_witness :
  parse_llm_response Json.json_loads
    (txt "{'has_issues': true, 'issues_found': ['a','b'], 'fixed_code': 'print('hi')\n'}")
  = Ok (VDict [ ("has_issues" : str, VBool true);
                ("issues_found" : str, VList [VStr "a"; VStr "b"]);
                ("fixed_code" : str, VStr (txt "print('hi')")) ]).
Proof.
  exact (fallback_recovers_fields Json.json_loads
           (txt "{'has_issues': true, 'issues_found': ['a','b'], 'fixed_code': 'print('hi')\n'}")
           (txt "{'has_issues': true, ") ", " (txt "print('hi')\n") "" ""
           eq_refl eq_refl eq_refl eq_refl eq_refl
           ltac:(discriminate) eq_refl eq_refl).
Defined.

(** * Runs that stop early *)

Lemma apply_fix_outcome py_str w file_path base_branch issues fixed_code :
  fst (apply_fix py_str w file_path base_branch issues fixed_code)
  = ChangeRequestCreated
  \/ fst (apply_fix py_str w file_path base_branch issues fixed_code) = Failed.
Proof.
  unfold apply_fix, attempt.
  repeat match goal with
         | |- context [match ?x with _ => _ end] => destruct x
         end; simpl; auto.
Qed.

Lemma analyze_code_calls w file_content filename :
  filter mutates (snd (analyze_code w file_content filename)) = [].
Proof.
  unfold analyze_code. now destruct (create_completion w _).
Qed.

Lemma diagnose_and_fix_clean json_loads compile py_str w
  file_path base_branch original_content :
  let run :=
    diagnose_and_fix json_loads compile py_str w file_path base_branch
      original_content in
  fst run = ChangeRequestCreated \/ fst run = Failed
  \/ filter mutates (snd run) = [].
Proof.
  unfold diagnose_and_fix.
  pose proof (analyze_code_calls w original_content file_path) as Hcalls.
  destruct (analyze_code w original_content file_path) as [analysis called].
  cbn [snd] in Hcalls.
  destruct analysis as [[|c analysis]|]; cbn [fst snd]; auto.
  destruct (parse_llm_response json_loads (c :: analysis))
    as [[| | | | | |result]|e]; cbn [fst snd]; auto.
  destruct (negb (truthy (get_default "has_issues" (VBool false) result)));
    cbn [fst snd]; auto.
  destruct (negb (truthy (get_default "fixed_code" (VStr []) result)));
    cbn [fst snd]; auto.
  destruct (get_default "fixed_code" (VStr []) result)
    as [| | | |fixed_code| |]; cbn [fst snd]; auto.
  destruct (validate_fixed_code compile original_content fixed_code file_path)
    as [[]|]; cbn [fst snd]; auto.
  pose proof (apply_fix_outcome py_str w file_path base_branch
                (get_default "issues_found" (VList []) result) fixed_code)
    as Hfix.
  destruct (apply_fix py_str w file_path base_branch
              (get_default "issues_found" (VList []) result) fixed_code).
  cbn [fst snd] in *. tauto.
Qed.

(** X19: whatever the collaborators answer, a run that ends anywhere but in
    [ChangeRequestCreated] or [Failed] has made no call that writes,
    branches, stages, commits, pushes or opens a pull request. *)
Lemma early_returns_are_clean json_loads compile py_str w
  repo_url file_path base_branch :
  let run :=
    clone_and_fix json_loads compile py_str w repo_url file_path base_branch
  in
  fst run = ChangeRequestCreated \/ fst run = Failed
  \/ filter mutates (snd run) = [].
Proof.
  unfold clone_and_fix, attempt.
  destruct (resolve_repo repo_url) as [[owner repo_name]|]; simpl; auto.
  destruct (get_repo w _); simpl; auto.
  destruct (clone_from w _); simpl; auto.
  destruct (path_exists w file_path); simpl; auto.
  destruct (read_file w file_path) as [original_content|]; simpl; auto.
  apply diagnose_and_fix_clean.
Qed.

(** * What the parser makes of a response comes from the response *)

Lemma part_refl s : part s s.
Proof. exists [], []. now rewrite app_nil_r. Qed.

Lemma part_trans x y z : part x y -> part y z -> part x z.
Proof.
  intros (a & b & ->) (a' & b' & ->).
  exists (a' ++ a), (b ++ b'). now rewrite <- !app_assoc.
Qed.

Lemma slice_part s a b : part (Py.slice s a b) s.
Proof.
  unfold Py.slice.
  set (m := Z.to_nat (Py.adjust (Py.len s) a)).
  set (n := Z.to_nat (Py.adjust (Py.len s) b - Py.adjust (Py.len s) a)).
  exists (firstn m s), (skipn n (skipn m s)).
  now rewrite (firstn_skipn n), (firstn_skipn m).
Qed.

Lemma strip_is_part s : part (Py.strip s) s.
Proof. exact (strip_part s). Qed.

Lemma part_contains p x s :
  part x s -> Py.contains p s = false -> Py.contains p x = false.
Proof.
  intros (a & b & ->) H. rewrite contains_index in *.
  destruct (index_of p (a ++ x ++ b)) eqn:E; [discriminate|].
  now rewrite (index_of_none_part _ _ _ _ E).
Qed.

(** Between [start] and the next occurrence of [p], or the last character
    when there is none, [p] does not occur. *)
Lemma slice_to_next_clean p s start :
  p <> [] -> 0 <= start ->
  Py.contains p (Py.slice s start (Py.find p s start)) = false.
Proof.
  intros Hp Hstart.
  destruct (Z.le_gt_cases start (Py.len s)) as [Hle|Hgt].
  - rewrite find_from by lia.
    destruct (index_of p (skipn (Z.to_nat start) s)) as [k|] eqn:E.
    + pose proof (index_of_fits _ _ _ E) as Hfit.
      rewrite length_skipn in Hfit.
      rewrite slice_inside by (unfold Py.len in *; lia).
      replace (Z.to_nat (start + Z.of_nat k - start)) with k by lia.
      now rewrite contains_index, index_of_firstn.
    + unfold Py.slice.
      replace (Z.to_nat (Py.adjust (Py.len s) start)) with (Z.to_nat start)
        by (unfold Py.adjust; destruct (Z.ltb_spec start 0); lia).
      rewrite contains_index.
      rewrite <- (firstn_skipn
                    (Z.to_nat (Py.adjust (Py.len s) (-1)
                               - Py.adjust (Py.len s) start))
                    (skipn (Z.to_nat start) s)) in E.
      rewrite <- (app_nil_l (firstn _ _ ++ _)) in E.
      now rewrite (index_of_none_part _ _ _ _ E).
  - rewrite find_beyond by lia. unfold Py.slice.
    replace (Z.to_nat (Py.adjust (Py.len s) start)) with (List.length s)
      by (unfold Py.adjust, Py.len in *; destruct (Z.ltb_spec start 0); lia).
    rewrite skipn_all, firstn_nil. now destruct p.
Qed.

Lemma longer_absent p q s :
  Py.contains p s = false -> Py.contains (p ++ q) s = false.
Proof.
  rewrite !contains_index.
  destruct (index_of (p ++ q) s) as [k|] eqn:E; [|reflexivity].
  destruct (index_of_prefix_pattern p q s k E) as [k' ->]. discriminate.
Qed.

Lemma find_nonneg_start p s : 0 <= Py.find p s 0 + Py.len p.
Proof.
  rewrite find_zero. pose proof (len_nonneg p).
  destruct (index_of p s) as [k|] eqn:E; [lia|].
  destruct p; [|unfold Py.len; cbn [List.length]; lia].
  destruct s; discriminate.
Qed.

Lemma lstrip_by_idem f s :
  Py.lstrip_by f (Py.lstrip_by f s) = Py.lstrip_by f s.
Proof.
  induction s as [|c s IH]; simpl; [reflexivity|].
  destruct (f c) eqn:E; [exact IH|]. simpl. now rewrite E.
Qed.

Lemma lstrip_by_snoc f u c :
  f c = false -> Py.lstrip_by f (u ++ [c]) = Py.lstrip_by f u ++ [c].
Proof.
  intros Hc. induction u as [|d u IH]; simpl.
  - now rewrite Hc.
  - now destruct (f d).
Qed.

Lemma rstrip_by_cons f c t :
  f c = false -> Py.rstrip_by f (c :: t) = c :: Py.rstrip_by f t.
Proof.
  intros Hc. unfold Py.rstrip_by. simpl.
  now rewrite lstrip_by_snoc, rev_app_distr.
Qed.

Lemma rstrip_by_idem f s :
  Py.rstrip_by f (Py.rstrip_by f s) = Py.rstrip_by f s.
Proof.
  unfold Py.rstrip_by. now rewrite rev_involutive, lstrip_by_idem.
Qed.

Lemma lstrip_rstrip f s :
  Py.lstrip_by f (Py.rstrip_by f (Py.lstrip_by f s))
  = Py.rstrip_by f (Py.lstrip_by f s).
Proof.
  induction s as [|c s IH]; [reflexivity|]. simpl.
  destruct (f c) eqn:E; [exact IH|].
  rewrite rstrip_by_cons by exact E. simpl. now rewrite E.
Qed.

Lemma strip_idempotent s : Py.strip (Py.strip s) = Py.strip s.
Proof.
  unfold Py.strip. now rewrite lstrip_rstrip, rstrip_by_idem.
Qed.

(** What [json_str] returns is the trimmed slice after an opener, or the
    trimmed response: in each case a trimmed text without a fence, or the
    trimmed response itself. *)
Lemma json_str_cases response_text :
  (exists inner,
      json_str response_text = Py.strip inner
      /\ part inner response_text
      /\ Py.contains triple_backtick inner = false)
  \/ (json_str response_text = Py.strip response_text
      /\ Py.contains triple_backtick response_text = false).
Proof.
  unfold json_str.
  destruct (Py.contains (triple_backtick ++ "json") response_text).
  - left. eexists. split; [reflexivity|]. split; [apply slice_part|].
    apply slice_to_next_clean; [discriminate|].
    exact (find_nonneg_start (triple_backtick ++ "json") response_text).
  - destruct (Py.contains triple_backtick response_text) eqn:E.
    + left. eexists. split; [reflexivity|]. split; [apply slice_part|].
      apply slice_to_next_clean; [discriminate|].
      exact (find_nonneg_start triple_backtick response_text).
    + now right.
Qed.

(** X1: the payload is a contiguous part of the response: [json_str] adds
    and alters no character. *)
Theorem json_str_part response_text :
  part (json_str response_text) response_text.
Proof.
  destruct (json_str_cases response_text)
    as [(inner & -> & Hpart & _) | (-> & _)].
  - exact (part_trans _ _ _ (strip_is_part inner) Hpart).
  - apply strip_is_part.
Qed.

Lemma json_str_clean response_text :
  Py.contains triple_backtick (json_str response_text) = false.
Proof.
  destruct (json_str_cases response_text)
    as [(inner & -> & _ & Hinner) | (-> & Hnone)];
    now apply contains_strip.
Qed.

Lemma json_str_twice response_text :
  json_str (json_str response_text) = json_str response_text.
Proof.
  pose proof (json_str_clean response_text) as Hclean.
  assert (Hstrip : Py.strip (json_str response_text) = json_str response_text).
  { destruct (json_str_cases response_text)
      as [(inner & -> & _) | (-> & _)]; apply strip_idempotent. }
  unfold json_str at 1.
  rewrite (longer_absent triple_backtick "json" _ Hclean), Hclean.
  exact Hstrip.
Qed.

(** X2: the payload holds no fence, and taking the payload of a payload
    changes nothing. *)
Theorem json_str_idempotent response_text :
  Py.contains triple_backtick (json_str response_text) = false
  /\ json_str (json_str response_text) = json_str response_text.
Proof.
  split; [apply json_str_clean | apply json_str_twice].
Qed.

(** X3: the parser answers on the payload alone what it answers on the
    whole response: text around the fences has no say. *)
Theorem parse_llm_response_payload json_loads response_text :
  parse_llm_response json_loads (json_str response_text)
  = parse_llm_response json_loads response_text.
Proof.
  unfold parse_llm_response. now rewrite json_str_twice.
Qed.

Lemma fenced_part opener skip code inner :
  fenced opener skip code = Some inner -> part inner code.
Proof.
  unfold fenced.
  destruct (negb (Py.find triple_backtick code
                    (Py.find opener code 0 + skip) =? -1));
    [|discriminate].
  intros [= <-].
  exact (part_trans _ _ _ (strip_is_part _) (slice_part _ _ _)).
Qed.

(** X4: what the sanitizer returns is a contiguous part of the content it
    was given. *)
Theorem sanitize_part code : part (sanitize code) code.
Proof.
  unfold sanitize.
  destruct (Py.contains (triple_backtick ++ "python") code).
  - destruct (fenced (triple_backtick ++ "python") 9 code) eqn:E;
      [exact (fenced_part _ _ _ _ E) | apply part_refl].
  - destruct (Py.contains triple_backtick code); [|apply part_refl].
    destruct (fenced triple_backtick 3 code) eqn:E;
      [exact (fenced_part _ _ _ _ E) | apply part_refl].
Qed.

Lemma issues_loop_parts fuel issues_text current issues found :
  issues_loop fuel issues_text current issues = Some found ->
  Forall (fun issue => part issue issues_text) issues ->
  Forall (fun issue => part issue issues_text) found.
Proof.
  revert current issues.
  induction fuel as [|fuel IH]; intros current issues; [discriminate|].
  cbn [issues_loop].
  destruct (Py.find [dq] issues_text current =? -1); [now intros [= <-]|].
  destruct (Py.find [dq] issues_text
              (Py.find [dq] issues_text current + 1) =? -1);
    [now intros [= <-]|].
  intros H Hparts. apply (IH _ _ H).
  apply Forall_app. split; [exact Hparts|].
  constructor; [apply slice_part | constructor].
Qed.

(** X5: every issue that the fallback scan recovers is a contiguous part
    of the payload, with no character replaced. *)
Theorem manual_issues_parts json_str :
  match manual_issues json_str with
  | Some issues => Forall (fun issue => part issue json_str) issues
  | None => True
  end.
Proof.
  unfold manual_issues.
  destruct (negb (Py.find (quoted "issues_found") json_str 0 =? -1));
    [|exact I].
  unfold scan_issues.
  match goal with
  | |- context [issues_loop ?f ?t 0 []] =>
      destruct (issues_loop f t 0 []) as [found|] eqn:E
  end; [|constructor].
  pose proof (issues_loop_parts _ _ _ _ _ E (Forall_nil _)) as Hparts.
  revert Hparts. apply Forall_impl. intros issue Hissue.
  exact (part_trans _ _ _ Hissue (slice_part _ _ _)).
Qed.

(** * The fallback scan, field by field *)

Lemma index_of_char_after c s r :
  index_of [c] s = None -> index_of [c] (s ++ c :: r) = Some (List.length s).
Proof.
  induction s as [|a s IH]; cbn [app index_of Py.starts_with List.length].
  - now rewrite Ascii.eqb_refl.
  - destruct (Ascii.eqb c a); cbn [andb]; [discriminate|].
    destruct (index_of [c] s); [discriminate|]. intros _.
    now rewrite IH.
Qed.

(** One round of the loop of lines 110-118, on an item between quotes. *)
Lemma quoted_item_found done sep x rest :
  index_of [dq] sep = None -> index_of [dq] x = None ->
  let text := done ++ sep ++ dq :: x ++ dq :: rest in
  let q1 := Py.len done + Py.len sep in
  Py.find [dq] text (Py.len done) = q1
  /\ Py.find [dq] text (q1 + 1) = q1 + 1 + Py.len x
  /\ Py.slice text (q1 + 1) (q1 + 1 + Py.len x) = x.
Proof.
  intros Hsep Hx text q1. subst text q1. split; [|split].
  - rewrite find_after, (index_of_char_after _ _ _ Hsep). reflexivity.
  - replace (done ++ sep ++ dq :: x ++ dq :: rest)
      with ((done ++ sep ++ [dq]) ++ x ++ dq :: rest)
      by (rewrite <- !app_assoc; reflexivity).
    replace (Py.len done + Py.len sep + 1) with (Py.len (done ++ sep ++ [dq]))
      by (rewrite !len_app; change (Py.len [dq]) with 1; lia).
    rewrite find_after, (index_of_char_after _ _ _ Hx). reflexivity.
  - replace (done ++ sep ++ dq :: x ++ dq :: rest)
      with ((done ++ sep ++ [dq]) ++ x ++ dq :: rest)
      by (rewrite <- !app_assoc; reflexivity).
    replace (Py.len done + Py.len sep + 1) with (Py.len (done ++ sep ++ [dq]))
      by (rewrite !len_app; change (Py.len [dq]) with 1; lia).
    apply slice_app.
Qed.

Lemma issues_loop_items items : forall fuel done tail issues,
  (List.length items < fuel)%nat ->
  Forall (fun item => quote_free (fst item) /\ quote_free (snd item)) items ->
  quote_free tail ->
  issues_loop fuel (done ++ quoted_items items tail) (Py.len done) issues
  = Some (issues ++ map snd items).
Proof.
  induction items as [|[sep x] items IH];
    intros fuel done tail issues Hfuel Hitems Htail;
    (destruct fuel as [|fuel]; [simpl in Hfuel; lia|]).
  - cbn [issues_loop]. unfold quoted_items. cbn [map List.concat app].
    rewrite find_after, (absent _ _ Htail). cbn.
    now rewrite app_nil_r.
  - inversion Hitems as [|? ? [Hsep Hx] Hrest]; subst. cbn [fst snd] in *.
    assert (Htext : done ++ quoted_items ((sep, x) :: items) tail
                    = done ++ sep ++ dq :: x ++ dq :: quoted_items items tail).
    { unfold quoted_items, quoted. cbn [map List.concat fst snd].
      rewrite <- ?app_assoc. cbn [app]. rewrite <- ?app_assoc.
      reflexivity. }
    rewrite Htext.
    destruct (quoted_item_found done sep x (quoted_items items tail)
                (absent _ _ Hsep) (absent _ _ Hx)) as (Hq1 & Hq2 & Hslice).
    cbn [issues_loop]. rewrite Hq1.
    pose proof (len_nonneg done). pose proof (len_nonneg sep).
    pose proof (len_nonneg x).
    destruct (Z.eqb_spec (Py.len done + Py.len sep) (-1)); [lia|].
    rewrite Hq2.
    destruct (Z.eqb_spec (Py.len done + Py.len sep + 1 + Py.len x) (-1));
      [lia|].
    rewrite Hslice.
    replace (done ++ sep ++ dq :: x ++ dq :: quoted_items items tail)
      with ((done ++ sep ++ dq :: x ++ [dq]) ++ quoted_items items tail)
      by (rewrite <- !app_assoc; cbn [app]; rewrite <- !app_assoc;
          reflexivity).
    replace (Py.len done + Py.len sep + 1 + Py.len x + 1)
      with (Py.len (done ++ sep ++ dq :: x ++ [dq]))
      by (rewrite !len_app; unfold Py.len; cbn [List.length];
          rewrite length_app; cbn [List.length]; lia).
    rewrite IH by (try assumption; simpl in Hfuel; lia).
    cbn [map fst snd]. now rewrite <- app_assoc.
Qed.

Lemma quoted_items_length items tail :
  (List.length items <= List.length (quoted_items items tail))%nat.
Proof.
  unfold quoted_items. rewrite length_app.
  induction items as [|[sep x] items IH]; cbn [map List.concat List.length];
    [lia|].
  unfold quoted in *. cbn [fst snd]. rewrite !length_app. cbn [List.length].
  rewrite length_app. cbn [List.length]. lia.
Qed.

Lemma scan_issues_items items tail :
  Forall (fun item => quote_free (fst item) /\ quote_free (snd item)) items ->
  quote_free tail ->
  scan_issues (quoted_items items tail) = map snd items.
Proof.
  intros Hitems Htail. unfold scan_issues.
  pose proof (issues_loop_items items
                (S (List.length (quoted_items items tail))) [] tail []
                ltac:(pose proof (quoted_items_length items tail); lia)
                Hitems Htail) as H.
  cbn [app] in H. change (Py.len []) with 0 in H. now rewrite H.
Qed.

Lemma index_of_char_app_none c a b :
  index_of [c] a = None -> index_of [c] b = None ->
  index_of [c] (a ++ b) = None.
Proof.
  intros Ha Hb. induction a as [|d a IH]; [exact Hb|].
  cbn [app index_of Py.starts_with] in *.
  destruct (Ascii.eqb c d); cbn [andb] in *; [discriminate|].
  destruct (index_of [c] a); [discriminate|]. now rewrite IH.
Qed.

(** X6: the fallback reads a list of issues back as it was written: when
    the key first occurs after [head], no bracket stands between the key and
    the opening bracket, the items and what separates them hold no quote and
    the list holds no closing bracket, [manual_issues] is the items, in
    order. *)
Theorem manual_issues_round_trip head between items tail rest :
  Py.find (quoted "issues_found") (head ++ quoted "issues_found") 0
  = Py.len head ->
  Py.contains "[" between = false ->
  Forall (fun item => quote_free (fst item) /\ quote_free (snd item)) items ->
  quote_free tail ->
  Py.contains "]" (quoted_items items tail) = false ->
  manual_issues
    (head ++ quoted "issues_found" ++ between ++ "["
     ++ quoted_items items tail ++ "]" ++ rest)
  = Some (map snd items).
Proof.
  intros Hkey Hbetween Hitems Htail Hclose.
  set (inner := quoted_items items tail) in *.
  set (key := quoted "issues_found") in *.
  unfold manual_issues. fold key.
  change (list_ascii_of_string "[") with ["["%char] in *.
  change (list_ascii_of_string "]") with ["]"%char] in *.
  cbn [app].
  pose proof (len_nonneg head) as Hhead.
  assert (Hstart : Py.find key
                     (head ++ key ++ between ++ "["%char :: inner
                      ++ "]"%char :: rest) 0 = Py.len head).
  { rewrite find_zero, (first_at _ _ Hkey). reflexivity. }
  rewrite Hstart.
  destruct (Z.eqb_spec (Py.len head) (-1)); [lia|]. cbn [negb].
  assert (Hopen : Py.find ["["%char]
                    (head ++ key ++ between ++ "["%char :: inner
                     ++ "]"%char :: rest) (Py.len head)
                  = Py.len (head ++ key ++ between)).
  { rewrite find_after, (app_assoc key between).
    rewrite index_of_char_after, !len_app, length_app.
    - unfold Py.len. lia.
    - apply index_of_char_app_none; [reflexivity | now apply absent]. }
  rewrite Hopen.
  assert (Hend : Py.find ["]"%char]
                   (head ++ key ++ between ++ "["%char :: inner
                    ++ "]"%char :: rest) (Py.len (head ++ key ++ between))
                 = Py.len (head ++ key ++ between) + 1 + Py.len inner).
  { replace (head ++ key ++ between ++ "["%char :: inner ++ "]"%char :: rest)
      with ((head ++ key ++ between)
            ++ ("["%char :: inner) ++ "]"%char :: rest)
      by (rewrite <- !app_assoc; reflexivity).
    rewrite find_after, index_of_char_after.
    - unfold Py.len. cbn [List.length]. lia.
    - apply (index_of_char_app_none _ ["["%char] inner);
        [reflexivity | now apply absent]. }
  rewrite Hend.
  replace (head ++ key ++ between ++ "["%char :: inner ++ "]"%char :: rest)
    with ((head ++ key ++ between ++ ["["%char]) ++ inner ++ "]"%char :: rest)
    by (rewrite <- !app_assoc; reflexivity).
  replace (Py.len (head ++ key ++ between) + 1)
    with (Py.len (head ++ key ++ between ++ ["["%char]))
    by (rewrite !len_app; change (Py.len ["["%char]) with 1; lia).
  rewrite slice_app. f_equal. now apply scan_issues_items.
Qed.

Lemma manual_issues_round_trip_witness :
  manual_issues
    (txt "{'has_issues': true, 'issues_found' : [ 'off by one', 'unused import'], 'fixed_code': 'x'}")
  = Some ["off by one" : str; "unused import" : str].
Proof.
  exact (manual_issues_round_trip (txt "{'has_issues': true, ") " : "
           [(" " : str, "off by one" : str); (", " : str, "unused import" : str)]
           "" (txt ", 'fixed_code': 'x'}")
           eq_refl eq_refl
           ltac:(repeat constructor)
           eq_refl eq_refl).
Defined.

(** X7: in the fallback [has_issues] is true exactly when the payload holds,
    anywhere, four characters that lower-case to true: inside a description
    or the code as well as in the field itself. *)
Theorem manual_has_issues_iff json_str :
  manual_has_issues json_str = true
  <-> exists a t b, json_str = a ++ t ++ b /\ Py.lower t = "true".
Proof.
  unfold manual_has_issues. split.
  - intros H. apply contains_split in H as (a' & b' & H).
    unfold Py.lower in H.
    apply map_eq_app in H as (a & r & -> & Ha & Hr).
    apply map_eq_app in Hr as (t & b & -> & Ht & Hb).
    now exists a, t, b.
  - intros (a & t & b & -> & Ht).
    unfold Py.lower in *. rewrite !map_app, Ht. apply contains_occurs.
Qed.

Lemma replace_absent old new s :
  old <> [] -> index_of old s = None -> Py.replace old new s = s.
Proof.
  intros Hold. unfold Py.replace. destruct old as [|o old]; [contradiction|].
  induction s as [|c s IH]; [reflexivity|].
  cbn [index_of Py.replace_go].
  destruct (Py.starts_with (o :: old) (c :: s)); [discriminate|].
  destruct (index_of (o :: old) s); [discriminate|]. intros _.
  now rewrite IH.
Qed.

Lemma unescape_plain s :
  Py.contains [backslash] s = false -> unescape s = Py.strip s.
Proof.
  intros H. unfold unescape.
  rewrite (replace_absent [backslash; "n"%char] [newline] s)
    by (discriminate
        || exact (absent _ _ (longer_absent [backslash] ["n"%char] s H))).
  rewrite (replace_absent [backslash; dq] [dq] s)
    by (discriminate
        || exact (absent _ _ (longer_absent [backslash] [dq] s H))).
  rewrite (replace_absent [backslash; backslash] [backslash] s)
    by (discriminate
        || exact (absent _ _ (longer_absent [backslash] [backslash] s H))).
  reflexivity.
Qed.

(** X8: when the payload holds no backslash, the [fixed_code] that the
    fallback reports, if it reports one, is a contiguous part of the
    payload. *)
Theorem manual_fixed_code_verbatim json_str :
  Py.contains [backslash] json_str = false ->
  match manual_fixed_code json_str with
  | Some fixed_code => part fixed_code json_str
  | None => True
  end.
Proof.
  intros H. unfold manual_fixed_code.
  destruct (negb (Py.find (quoted "fixed_code") json_str 0 =? -1));
    [|exact I].
  match goal with |- context [if ?b then _ else _] => destruct b end;
    [|exact I].
  rewrite unescape_plain by exact (part_contains _ _ _ (slice_part _ _ _) H).
  exact (part_trans _ _ _ (strip_is_part _) (slice_part _ _ _)).
Qed.

Lemma manual_fixed_code_verbatim_witness :
  exists fixed_code,
    manual_fixed_code (txt "{'fixed_code': ' print('hi') ' ,}")
    = Some fixed_code
    /\ part fixed_code (txt "{'fixed_code': ' print('hi') ' ,}").
Proof.
  pose proof (manual_fixed_code_verbatim
                (txt "{'fixed_code': ' print('hi') ' ,}") eq_refl) as H.
  exists (txt "print('hi')"). split; [reflexivity | exact H].
Defined.

(** * The validator, check by check *)

(** X9: the placeholder check is the check on the five lower-case phrases:
    the marker # TODO, looked for in lower-cased text, never rejects. *)
Theorem todo_placeholder_is_dead original_code fixed_code :
  find_placeholder original_code fixed_code
  = List.find
      (fun placeholder =>
         Py.contains placeholder (Py.lower fixed_code)
         && negb (Py.contains placeholder (Py.lower original_code)))
      (firstn 5 placeholders).
Proof.
  unfold find_placeholder, placeholders. cbn [List.find firstn].
  rewrite (todo_marker_never_matches fixed_code). cbn [andb].
  repeat match goal with
         | |- context [if ?b then _ else _] => destruct b
         end; reflexivity.
Qed.

(** X10: a fix shorter than half the original is rejected, whatever it
    holds and whether or not it compiles. *)
Theorem short_fix_is_rejected compile original_code fixed_code filename :
  2 * Py.len fixed_code < Py.len original_code ->
  validate_fixed_code compile original_code fixed_code filename = Ok false.
Proof.
  intros Hshort. unfold validate_fixed_code.
  destruct (find_placeholder original_code fixed_code); [reflexivity|].
  destruct (Z.ltb_spec (2 * Py.len fixed_code) (Py.len original_code));
    [reflexivity | lia].
Qed.

Lemma short_fix_is_rejected_witness :
  validate_fixed_code (fun _ _ => Compiled) "import os; import sys" "import os"
    "app.py" = Ok false.
Proof.
  apply short_fix_is_rejected. vm_compute. reflexivity.
Defined.

Lemma lower_len s : Py.len (Py.lower s) = Py.len s.
Proof. unfold Py.len, Py.lower. now rewrite length_map. Qed.

(** X11: the two heuristic checks compare the fix with the original up to
    letter case only: a fix that lower-cases to the same text as the
    original, the unchanged original among them, passes both, and the
    verdict is that of [compile]. *)
Theorem same_text_passes_heuristics compile original_code fixed_code filename :
  Py.lower fixed_code = Py.lower original_code ->
  validate_fixed_code compile original_code fixed_code filename
  = match compile fixed_code filename with
    | Compiled => Ok true
    | SyntaxError => Ok false
    | CompileRaised e => Raise e
    end.
Proof.
  intros Hsame. unfold validate_fixed_code.
  assert (Hnone : find_placeholder original_code fixed_code = None).
  { unfold find_placeholder. apply find_all_none. intros p _.
    rewrite Hsame. now destruct (Py.contains p (Py.lower original_code)). }
  rewrite Hnone.
  pose proof (len_nonneg fixed_code).
  assert (Py.len fixed_code = Py.len original_code)
    by (rewrite <- (lower_len fixed_code), Hsame; apply lower_len).
  destruct (Z.ltb_spec (2 * Py.len fixed_code) (Py.len original_code));
    [lia | reflexivity].
Qed.

Lemma same_text_passes_heuristics_witness :
  validate_fixed_code (fun _ _ => Compiled) "# TODO: Your Code Here"
    "# todo: your code here" "app.py" = Ok true.
Proof.
  exact (same_text_passes_heuristics (fun _ _ => Compiled)
           "# TODO: Your Code Here" "# todo: your code here" "app.py"
           eq_refl).
Defined.

(** * The repository identifier, on the URLs it is meant for *)

Lemma rstrip_by_snoc f s c :
  f c = true -> Py.rstrip_by f (s ++ [c]) = Py.rstrip_by f s.
Proof.
  intros Hc. unfold Py.rstrip_by. rewrite rev_app_distr. simpl.
  now rewrite Hc.
Qed.

Lemma rstrip_by_repeat f s c n :
  f c = true -> Py.rstrip_by f (s ++ repeat c n) = Py.rstrip_by f s.
Proof.
  intros Hc. revert s; induction n as [|n IH]; intros s.
  - now rewrite app_nil_r.
  - cbn [repeat]. change (s ++ c :: repeat c n) with (s ++ [c] ++ repeat c n).
    rewrite app_assoc, IH. now apply rstrip_by_snoc.
Qed.

Lemma rstrip_by_last f s c :
  f c = false -> Py.rstrip_by f (s ++ [c]) = s ++ [c].
Proof.
  intros Hc. unfold Py.rstrip_by. rewrite rev_app_distr. simpl.
  rewrite Hc. simpl. now rewrite rev_involutive.
Qed.

Lemma repo_parts_trailing_slashes repo_url n :
  repo_parts (repo_url ++ repeat "/"%char n) = repo_parts repo_url.
Proof.
  unfold repo_parts, Py.rstrip.
  now rewrite rstrip_by_repeat.
Qed.

(** X12: slashes at the end of the URL make no difference to the owner and
    the name that are read off it. *)
Theorem resolve_repo_trailing_slashes repo_url n :
  resolve_repo (repo_url ++ repeat "/"%char n) = resolve_repo repo_url.
Proof.
  unfold resolve_repo. now rewrite repo_parts_trailing_slashes.
Qed.

Lemma replace_go_skip old new y r :
  Py.replace_go old new (y ++ r) (List.length y) = Py.replace_go old new r 0.
Proof.
  induction y as [|c y IH]; [reflexivity|]. exact IH.
Qed.

(** The first occurrence is replaced, and the search goes on after it. *)
Lemma replace_first old new x r :
  old <> [] ->
  index_of old (x ++ old) = Some (List.length x) ->
  Py.replace old new (x ++ old ++ r) = x ++ new ++ Py.replace old new r.
Proof.
  intros Hold. unfold Py.replace.
  destruct old as [|o old]; [contradiction|]. clear Hold.
  induction x as [|c x IH]; intros Hx.
  - cbn [app Py.replace_go].
    assert (Hs : Py.starts_with (o :: old) (o :: old ++ r) = true)
      by apply (starts_with_app (o :: old) r).
    rewrite Hs. f_equal.
    cbn [List.length]. rewrite Nat.sub_1_r. cbn [pred].
    apply replace_go_skip.
  - cbn [app index_of List.length] in Hx.
    destruct (Py.starts_with (o :: old) (c :: x ++ o :: old)) eqn:E;
      [discriminate|].
    destruct (index_of (o :: old) (x ++ o :: old)) as [k|] eqn:Ek;
      [|discriminate].
    cbn [option_map] in Hx. injection Hx as ->.
    cbn [app Py.replace_go].
    assert (E' : Py.starts_with (o :: old) (c :: x ++ o :: old ++ r)
                 = false).
    { pose proof (starts_with_long (o :: old) ((c :: x) ++ o :: old) r) as L.
      rewrite <- app_assoc in L. cbn [app] in L.
      rewrite L; [exact E|].
      cbn [List.length]. rewrite length_app. cbn [List.length]. lia. }
    rewrite E'. f_equal. now apply IH.
Qed.

Lemma contains_char_not_in c s : Py.contains [c] s = false -> ~ In c s.
Proof.
  intros H Hin. apply in_split in Hin as (a & b & ->).
  apply absent in H.
  destruct (index_of_occurs [c] a b) as [k Hk]. cbn [app] in Hk. congruence.
Qed.

Lemma split_go_free c s r cur :
  ~ In c s ->
  Py.split_go [c] (s ++ r) cur 0 = Py.split_go [c] r (rev s ++ cur) 0.
Proof.
  revert cur; induction s as [|a s IH]; intros cur Hs; [reflexivity|].
  cbn [app Py.split_go Py.starts_with].
  destruct (Ascii.eqb_spec c a) as [->|Hne]; [exfalso; apply Hs; now left|].
  cbn [andb]. rewrite IH by (intros Hin; apply Hs; now right).
  cbn [rev]. now rewrite <- app_assoc.
Qed.

Lemma split_go_end c s cur :
  ~ In c s -> Py.split_go [c] s cur 0 = [rev cur ++ s].
Proof.
  intros Hs. rewrite <- (app_nil_r s) at 1. rewrite split_go_free by exact Hs.
  cbn [Py.split_go]. now rewrite rev_app_distr, rev_involutive.
Qed.

Lemma split_two c owner name :
  ~ In c owner -> ~ In c name ->
  Py.split [c] (owner ++ c :: name) = [owner; name].
Proof.
  intros Ho Hn. unfold Py.split. rewrite split_go_free by exact Ho.
  cbn [Py.split_go Py.starts_with]. rewrite Ascii.eqb_refl. cbn [andb].
  cbn [List.length Nat.sub]. rewrite split_go_end by exact Hn.
  now rewrite app_nil_r, rev_involutive.
Qed.

Lemma prefix_absent owner name :
  ~ In "/"%char owner -> ~ In "/"%char name ->
  index_of "https://github.com/" (owner ++ "/"%char :: name) = None.
Proof.
  intros Ho Hn.
  destruct (index_of "https://github.com/" (owner ++ "/"%char :: name))
    as [k|] eqn:E; [exfalso | reflexivity].
  apply index_of_at, starts_with_inv in E.
  assert (Hcount :
            count_occ ascii_dec (owner ++ "/"%char :: name) "/"%char = 1%nat).
  { rewrite count_occ_app, (proj1 (count_occ_not_In ascii_dec _ _) Ho).
    cbn [count_occ].
    destruct (ascii_dec "/" "/") as [_|Hne]; [|contradiction].
    now rewrite (proj1 (count_occ_not_In ascii_dec _ _) Hn). }
  rewrite <- (firstn_skipn k (owner ++ "/"%char :: name)) in Hcount.
  rewrite E, !count_occ_app in Hcount.
  change (count_occ ascii_dec "https://github.com/" "/"%char) with 3%nat
    in Hcount.
  lia.
Qed.

Lemma git_suffix_first u :
  index_of ".git" u = None ->
  index_of ".git" (u ++ ".git") = Some (List.length u).
Proof.
  induction u as [|c u IH]; [reflexivity|].
  cbn [index_of]. intros H.
  destruct (Py.starts_with ".git" (c :: u)) eqn:E; [discriminate|].
  destruct (index_of ".git" u) eqn:Eu; [discriminate|].
  change ((c :: u) ++ ".git") with (c :: u ++ ".git"). cbn [index_of].
  assert (E' : Py.starts_with ".git" (c :: u ++ ".git") = false).
  { change (list_ascii_of_string ".git")
      with ["."%char; "g"%char; "i"%char; "t"%char] in *.
    destruct u as [|c2 [|c3 [|c4 u]]].
    - cbn [Py.starts_with app]. now destruct (Ascii.eqb "." c).
    - cbn [Py.starts_with app]. destruct (Ascii.eqb "." c); [|reflexivity].
      now destruct (Ascii.eqb "g" c2).
    - cbn [Py.starts_with app]. destruct (Ascii.eqb "." c); [|reflexivity].
      destruct (Ascii.eqb "g" c2); [|reflexivity].
      now destruct (Ascii.eqb "i" c3).
    - pose proof (starts_with_long ["."%char; "g"%char; "i"%char; "t"%char]
                    (c :: c2 :: c3 :: c4 :: u)
                    ["."%char; "g"%char; "i"%char; "t"%char]) as L.
      cbn [app] in L. cbn [app]. rewrite L; [exact E|].
      cbn [List.length]. lia. }
  rewrite E', (IH eq_refl). reflexivity.
Qed.

Lemma repo_parts_canonical owner name :
  Py.contains "/" owner = false ->
  Py.contains "/" name = false ->
  name <> [] ->
  Py.contains ".git" ("https://github.com/" ++ owner ++ "/" ++ name) = false ->
  repo_parts ("https://github.com/" ++ owner ++ "/" ++ name) = [owner; name]
  /\ repo_parts ("https://github.com/" ++ owner ++ "/" ++ name ++ ".git")
     = [owner; name].
Proof.
  intros Ho Hn Hne Hgit.
  change (list_ascii_of_string "/") with ["/"%char] in *.
  apply contains_char_not_in in Ho, Hn.
  set (base := list_ascii_of_string "https://github.com/") in *.
  assert (Hrest : Py.split ["/"%char]
                    (Py.replace base ""
                       (base ++ owner ++ ["/"%char] ++ name))
                  = [owner; name]).
  { pose proof (replace_first base "" [] (owner ++ ["/"%char] ++ name)
                  ltac:(discriminate) eq_refl) as R.
    cbn [app] in R. cbn [app]. rewrite R.
    rewrite replace_absent;
      [now apply split_two | discriminate | now apply prefix_absent]. }
  assert (Hplain : Py.replace ".git" ""
                     (base ++ owner ++ ["/"%char] ++ name)
                   = base ++ owner ++ ["/"%char] ++ name)
    by (apply replace_absent; [discriminate | now apply absent]).
  destruct (exists_last Hne) as (name' & c & Hname).
  assert (Hc : c <> "/"%char).
  { intros ->. apply Hn. rewrite Hname. apply in_or_app. right. now left. }
  split.
  - unfold repo_parts, Py.rstrip. fold base.
    change (list_ascii_of_string "/") with ["/"%char].
    replace (Py.rstrip_by _ (base ++ owner ++ ["/"%char] ++ name))
      with (base ++ owner ++ ["/"%char] ++ name).
    + now rewrite Hplain.
    + rewrite Hname, !app_assoc. symmetry. apply rstrip_by_last.
      cbn. destruct (Ascii.eqb_spec c "/"); [contradiction | reflexivity].
  - unfold repo_parts, Py.rstrip. fold base.
    change (list_ascii_of_string "/") with ["/"%char].
    replace (Py.rstrip_by _ (base ++ owner ++ ["/"%char] ++ name ++ ".git"))
      with (base ++ owner ++ ["/"%char] ++ name ++ ".git").
    + pose proof (replace_first ".git" ""
                    (base ++ owner ++ ["/"%char] ++ name) []
                    ltac:(discriminate)
                    (git_suffix_first _ (absent _ _ Hgit))) as R.
      rewrite app_nil_r, <- !app_assoc in R. rewrite R.
      cbn [Py.replace Py.replace_go app]. now rewrite app_nil_r.
    + change (list_ascii_of_string ".git") with (".gi" ++ ["t"%char]).
      rewrite !app_assoc. symmetry. now apply rstrip_by_last.
Qed.

(** X13: a GitHub URL resolves to its owner and name, with or without the
    suffix .git and with any number of slashes at the end, when neither
    owner nor name holds a slash and the URL holds the four characters of
    the suffix nowhere else. *)
Theorem resolve_repo_canonical owner name n :
  Py.contains "/" owner = false ->
  Py.contains "/" name = false ->
  name <> [] ->
  Py.contains ".git" ("https://github.com/" ++ owner ++ "/" ++ name) = false ->
  resolve_repo
    (("https://github.com/" ++ owner ++ "/" ++ name) ++ repeat "/"%char n)
  = Some (owner, name)
  /\ resolve_repo
       (("https://github.com/" ++ owner ++ "/" ++ name ++ ".git")
        ++ repeat "/"%char n)
     = Some (owner, name).
Proof.
  intros Ho Hn Hne Hgit.
  destruct (repo_parts_canonical owner name Ho Hn Hne Hgit) as [H1 H2].
  unfold resolve_repo.
  now rewrite !repo_parts_trailing_slashes, H1, H2.
Qed.

Lemma resolve_repo_canonical_witness :
  resolve_repo "https://github.com/octocat/hello-world//"
  = Some ("octocat" : str, "hello-world" : str)
  /\ resolve_repo "https://github.com/octocat/hello-world.git/"
     = Some ("octocat" : str, "hello-world" : str).
Proof.
  exact (resolve_repo_canonical "octocat" "hello-world" 2 eq_refl eq_refl
           ltac:(discriminate) eq_refl).
Defined.

(** * The branch name and the prompts of [main] *)

Lemma replace_char c d s :
  Py.replace [c] [d] s = map (fun x => if Ascii.eqb c x then d else x) s.
Proof.
  unfold Py.replace. induction s as [|x s IH]; [reflexivity|].
  cbn [Py.replace_go Py.starts_with map List.length Nat.sub app].
  destruct (Ascii.eqb c x); cbn [andb]; now rewrite IH.
Qed.

Lemma branch_name_map file_path :
  branch_name file_path = "fix/auto-remediation-" ++ map dashed file_path.
Proof.
  unfold branch_name. f_equal.
  change (list_ascii_of_string ".") with ["."%char].
  change (list_ascii_of_string "/") with ["/"%char].
  change (list_ascii_of_string "-") with ["-"%char].
  rewrite !replace_char, map_map. apply map_ext. intros c. unfold dashed.
  destruct (Ascii.eqb "/" c); [reflexivity|]. reflexivity.
Qed.

Lemma dashed_not c x :
  Ascii.eqb "/" x || Ascii.eqb "." x = true -> Ascii.eqb x (dashed c) = false.
Proof.
  intros Hx. unfold dashed.
  destruct (Ascii.eqb "/" c) eqn:E1; cbn [orb].
  - apply orb_prop in Hx as [H|H]; apply Ascii.eqb_eq in H; now subst x.
  - destruct (Ascii.eqb "." c) eqn:E2.
    + apply orb_prop in Hx as [H|H]; apply Ascii.eqb_eq in H; now subst x.
    + apply orb_prop in Hx as [H|H]; apply Ascii.eqb_eq in H; subst x;
        now rewrite Ascii.eqb_sym.
Qed.

Lemma map_dashed_free x s :
  Ascii.eqb "/" x || Ascii.eqb "." x = true ->
  index_of [x] (map dashed s) = None.
Proof.
  intros Hx. induction s as [|c s IH]; [reflexivity|].
  cbn [map index_of Py.starts_with]. rewrite (dashed_not c x Hx), IH.
  reflexivity.
Qed.

(** X14: the branch is the fixed prefix followed by the path in which each
    slash and each dot has become a dash and every other character is kept;
    so what follows the prefix is as long as the path and holds neither a
    slash nor a dot. *)
Theorem branch_name_is_dashed_path file_path :
  branch_name file_path = "fix/auto-remediation-" ++ map dashed file_path
  /\ (forall c, dashed c = if Ascii.eqb "/" c || Ascii.eqb "." c
                           then "-"%char else c)
  /\ Py.len (map dashed file_path) = Py.len file_path
  /\ Py.contains "/" (map dashed file_path) = false
  /\ Py.contains "." (map dashed file_path) = false.
Proof.
  split; [apply branch_name_map|].
  split; [reflexivity|].
  split; [unfold Py.len; now rewrite length_map|].
  change (list_ascii_of_string "/") with ["/"%char].
  change (list_ascii_of_string ".") with ["."%char].
  rewrite !contains_index, !map_dashed_free; auto.
Qed.

(** * The pull requests that [main] asks for *)

Ltac pull_request_in H :=
  cbn [snd In app] in H;
  repeat (destruct H as [H|H]; try discriminate H);
  try contradiction;
  injection H as _ _ <- <-; split; reflexivity.

Lemma apply_fix_pull py_str w file_path base_branch issues fixed_code
  title body head base :
  In (CreatePull title body head base)
     (snd (apply_fix py_str w file_path base_branch issues fixed_code)) ->
  head = branch_name file_path /\ base = base_branch.
Proof.
  unfold apply_fix, attempt, branch_name.
  repeat match goal with
         | |- context [match ?x with _ => _ end] => destruct x
         end; intros H; pull_request_in H.
Qed.

Lemma diagnose_and_fix_pull json_loads compile py_str w
  file_path base_branch original_content title body head base :
  In (CreatePull title body head base)
     (snd (diagnose_and_fix json_loads compile py_str w file_path
             base_branch original_content)) ->
  head = branch_name file_path /\ base = base_branch.
Proof.
  unfold diagnose_and_fix, analyze_code.
  pose proof (apply_fix_pull py_str w file_path base_branch) as Hfix.
  destruct (create_completion w _) as [[[|c analysis]|]|];
    try (intros H; pull_request_in H).
  - destruct (parse_llm_response json_loads (c :: analysis))
      as [[| | | | | |result]|e]; try (intros H; pull_request_in H).
    destruct (negb (truthy (get_default "has_issues" (VBool false) result)));
      [intros H; pull_request_in H|].
    destruct (negb (truthy (get_default "fixed_code" (VStr []) result)));
      [intros H; pull_request_in H|].
    destruct (get_default "fixed_code" (VStr []) result)
      as [| | | |fixed_code| |]; try (intros H; pull_request_in H).
    destruct (validate_fixed_code compile original_content fixed_code
                file_path) as [[]|]; try (intros H; pull_request_in H).
    specialize (Hfix (get_default "issues_found" (VList []) result)
                  fixed_code title body head base).
    destruct (apply_fix py_str w file_path base_branch
                (get_default "issues_found" (VList []) result) fixed_code).
    cbn [snd app In] in *. intros [H|H]; [discriminate H | auto].
Qed.

Lemma clone_and_fix_pull json_loads compile py_str w
  repo_url file_path base_branch title body head base :
  In (CreatePull title body head base)
     (snd (clone_and_fix json_loads compile py_str w repo_url file_path
             base_branch)) ->
  head = branch_name file_path /\ base = base_branch.
Proof.
  unfold clone_and_fix, attempt.
  pose proof (diagnose_and_fix_pull json_loads compile py_str w file_path
                base_branch) as Hrest.
  destruct (resolve_repo repo_url) as [[owner repo_name]|];
    [|intros H; pull_request_in H].
  destruct (get_repo w _); [|intros H; pull_request_in H].
  destruct (clone_from w _); [|intros H; pull_request_in H].
  destruct (negb (path_exists w file_path)); [intros H; pull_request_in H|].
  destruct (read_file w file_path) as [original_content|];
    [|intros H; pull_request_in H].
  cbn [snd In]. intros [H|[H|H]]; try discriminate H.
  exact (Hrest original_content title body head base H).
Qed.

(** X15: every pull request that a run of [main] asks for goes from the
    branch named after the second line typed, stripped, into the branch of
    the third line typed, stripped, or into main when that line is blank:
    the base it names is never empty. *)
Theorem main_pull_request_target json_loads compile py_str w
  line1 line2 line3 title body head base :
  In (CreatePull title body head base)
     (snd (main json_loads compile py_str w line1 line2 line3)) ->
  head = branch_name (Py.strip line2)
  /\ base = match Py.strip line3 with
            | [] => "main" : str
            | _ :: _ => Py.strip line3
            end
  /\ base <> [].
Proof.
  unfold main. intros H.
  destruct (clone_and_fix_pull _ _ _ _ _ _ _ _ _ _ _ H) as [-> ->].
  repeat split. destruct (Py.strip line3); discriminate.
Qed.

Lemma main_pull_request_target_witness :
  exists title body head base,
    In (CreatePull title body head base)
       (snd (main Json.json_loads (fun _ _ => Compiled) (fun _ => [])
               (obliging "x = 1"
                  (txt "{'has_issues': true, 'issues_found': ['off by one'], 'fixed_code': 'x = 2'}"))
               " https://github.com/octocat/hello-world " " src/app.py "
               "  "))
    /\ head = "fix/auto-remediation-src-app-py"
    /\ base = "main".
Proof.
  pose (run :=
          main Json.json_loads (fun _ _ => Compiled) (fun _ => [])
            (obliging "x = 1"
               (txt "{'has_issues': true, 'issues_found': ['off by one'], 'fixed_code': 'x = 2'}"))
            " https://github.com/octocat/hello-world " " src/app.py " "  ").
  let t := eval vm_compute in (snd run) in
  match t with
  | context [CreatePull ?title ?body ?head ?base] =>
      assert (Hin : In (CreatePull title body head base) (snd run))
        by (vm_compute; repeat first [left; reflexivity | right]);
      exists title, body, head, base
  end.
  subst run. split; [exact Hin|].
  destruct (main_pull_request_target _ _ _ _ _ _ _ _ _ _ _ Hin)
    as (Hhead & Hbase & _).
  split; [exact Hhead | exact Hbase].
Defined.

(** * The side effects of a run *)

Ltac pipeline_prefix :=
  first [ exists 0%nat; reflexivity | exists 1%nat; reflexivity
        | exists 2%nat; reflexivity | exists 3%nat; reflexivity
        | exists 4%nat; reflexivity | exists 5%nat; reflexivity
        | exists 6%nat; reflexivity ].

Lemma apply_fix_effects py_str w file_path base_branch issues fixed_code :
  exists n,
    effects (snd (apply_fix py_str w file_path base_branch issues fixed_code))
    = firstn n pipeline.
Proof.
  unfold apply_fix, attempt.
  repeat match goal with
         | |- context [match ?x with _ => _ end] => destruct x
         end; cbn [fst snd effects effect_of]; pipeline_prefix.
Qed.

Lemma effects_app t1 t2 : effects (t1 ++ t2) = effects t1 ++ effects t2.
Proof.
  induction t1 as [|e t1 IH]; [reflexivity|].
  cbn [app effects]. destruct (effect_of e); cbn [app]; now rewrite IH.
Qed.

Lemma analyze_code_effects w file_content filename :
  effects (snd (analyze_code w file_content filename)) = [].
Proof.
  unfold analyze_code. now destruct (create_completion w _).
Qed.

Lemma diagnose_and_fix_effects json_loads compile py_str w
  file_path base_branch original_content :
  exists n,
    effects (snd (diagnose_and_fix json_loads compile py_str w file_path
                    base_branch original_content))
    = firstn n pipeline.
Proof.
  unfold diagnose_and_fix.
  pose proof (analyze_code_effects w original_content file_path) as Hcalls.
  destruct (analyze_code w original_content file_path) as [analysis called].
  cbn [snd] in Hcalls.
  assert (Hstop : exists n, effects called = firstn n pipeline)
    by (exists 0%nat; exact Hcalls).
  destruct analysis as [[|c analysis]|]; cbn [fst snd]; auto.
  destruct (parse_llm_response json_loads (c :: analysis))
    as [[| | | | | |result]|e]; cbn [fst snd]; auto.
  destruct (negb (truthy (get_default "has_issues" (VBool false) result)));
    cbn [fst snd]; auto.
  destruct (negb (truthy (get_default "fixed_code" (VStr []) result)));
    cbn [fst snd]; auto.
  destruct (get_default "fixed_code" (VStr []) result)
    as [| | | |fixed_code| |]; cbn [fst snd]; auto.
  destruct (validate_fixed_code compile original_content fixed_code file_path)
    as [[]|]; cbn [fst snd]; auto.
  destruct (apply_fix_effects py_str w file_path base_branch
              (get_default "issues_found" (VList []) result) fixed_code)
    as [n Hn].
  destruct (apply_fix py_str w file_path base_branch
              (get_default "issues_found" (VList []) result) fixed_code).
  cbn [fst snd] in *. exists n. now rewrite effects_app, Hcalls, Hn.
Qed.

(** X16: whatever the collaborators answer and wherever the run stops, the
    calls that change something are made in the order write, branch, stage,
    commit, push, pull request, each at most once and none before its
    predecessor: no step is skipped, repeated or undone. *)
Theorem effects_follow_pipeline json_loads compile py_str w
  repo_url file_path base_branch :
  exists n,
    effects (snd (clone_and_fix json_loads compile py_str w repo_url
                    file_path base_branch))
    = firstn n pipeline.
Proof.
  unfold clone_and_fix, attempt.
  destruct (resolve_repo repo_url) as [[owner repo_name]|];
    [|exists 0%nat; reflexivity].
  destruct (get_repo w _); [|exists 0%nat; reflexivity].
  destruct (clone_from w _); [|exists 0%nat; reflexivity].
  destruct (path_exists w file_path); [|exists 0%nat; reflexivity].
  destruct (read_file w file_path) as [original_content|];
    [|exists 0%nat; reflexivity].
  cbn [fst snd negb effects effect_of].
  apply diagnose_and_fix_effects.
Qed.

Lemma apply_fix_success py_str w file_path base_branch issues fixed_code :
  fst (apply_fix py_str w file_path base_branch issues fixed_code)
  = ChangeRequestCreated ->
  exists message title body,
    snd (apply_fix py_str w file_path base_branch issues fixed_code)
    = [ WriteFile file_path fixed_code;
        CheckoutB (branch_name file_path);
        Add file_path;
        Commit message;
        Push (branch_name file_path);
        CreatePull title body (branch_name file_path) base_branch ].
Proof.
  unfold apply_fix, attempt, branch_name.
  repeat match goal with
         | |- context [match ?x with _ => _ end] => destruct x
         end; cbn [fst snd]; intros H; try discriminate H;
    do 3 eexists; reflexivity.
Qed.

(** X17: a run ends with the pull request opened only if the identifier
    resolved, the file was read, the parser returned a diagnosis with issues
    and a string [fixed_code] that the validator accepted; the run then made
    exactly these calls: the three look-ups, the write of that very
    [fixed_code] to the path, the branch named after the path, the staging
    of the path, one commit, the push of the branch, and the pull request
    from the branch into the base branch that was asked for. *)
Theorem success_means json_loads compile py_str w
  repo_url file_path base_branch :
  fst (clone_and_fix json_loads compile py_str w repo_url file_path
         base_branch) = ChangeRequestCreated ->
  completed json_loads compile py_str w repo_url file_path base_branch.
Proof.
  unfold completed, clone_and_fix, attempt.
  destruct (resolve_repo repo_url) as [[owner repo_name]|];
    [|discriminate].
  destruct (get_repo w _); [|discriminate].
  destruct (clone_from w _); [|discriminate].
  destruct (path_exists w file_path); [|discriminate].
  destruct (read_file w file_path) as [original_content|]; [|discriminate].
  cbn [fst snd negb]. unfold diagnose_and_fix, analyze_code.
  destruct (create_completion w _) as [[[|c analysis]|]|] eqn:Hgroq;
    try discriminate.
  destruct (parse_llm_response json_loads (c :: analysis))
    as [[| | | | | |result]|e] eqn:Hparse; try discriminate.
  destruct (truthy (get_default "has_issues" (VBool false) result)) eqn:Hhas;
    [|discriminate].
  cbn [negb].
  destruct (negb (truthy (get_default "fixed_code" (VStr []) result)));
    [discriminate|].
  destruct (get_default "fixed_code" (VStr []) result)
    as [| | | |fixed_code| |] eqn:Hcode; try discriminate.
  destruct (validate_fixed_code compile original_content fixed_code file_path)
    as [[]|] eqn:Hvalid; try discriminate.
  pose proof (apply_fix_success py_str w file_path base_branch
                (get_default "issues_found" (VList []) result) fixed_code)
    as Hfix.
  destruct (apply_fix py_str w file_path base_branch
              (get_default "issues_found" (VList []) result) fixed_code)
    as [o t].
  cbn [fst snd] in *. intros Ho.
  destruct (Hfix Ho) as (message & title & body & ->).
  exists owner, repo_name, original_content, (c :: analysis), result,
    fixed_code, message, title, body.
  repeat split; try assumption; reflexivity.
Qed.

(** Scenario B of the specification. *)
Lemma success_means_witness :
  completed Json.json_loads (fun _ _ => Compiled) (fun _ => [])
    (obliging "x = 1"
       (txt "{'has_issues': true, 'issues_found': ['off by one'], 'fixed_code': 'x = 2'}"))
    "https://github.com/octocat/hello-world" "src/app.py" "main".
Proof.
  exact (success_means Json.json_loads (fun _ _ => Compiled) (fun _ => [])
           (obliging "x = 1"
              (txt "{'has_issues': true, 'issues_found': ['off by one'], 'fixed_code': 'x = 2'}"))
           "https://github.com/octocat/hello-world" "src/app.py" "main"
           eq_refl).
Defined.

(** X18: once the analysis is in, the parser and the validator decide where
    the run stops: at [ParseFailed] when the parser raises, at
    [NoFixProvided] when the diagnosis reports issues and its [fixed_code]
    is missing or empty, at [ValidationFailed] when the validator rejects
    the fix; in each case nothing has been written, branched, staged,
    committed, pushed or requested. *)
Theorem verdict_decides_outcome json_loads compile py_str w
  repo_url file_path base_branch original_content analysis :
  reaches_parser w repo_url file_path original_content analysis ->
  let run :=
    clone_and_fix json_loads compile py_str w repo_url file_path base_branch
  in
  (forall e,
      parse_llm_response json_loads analysis = Raise e ->
      fst run = ParseFailed e /\ effects (snd run) = [])
  /\ (forall result,
      parse_llm_response json_loads analysis = Ok (VDict result) ->
      truthy (get_default "has_issues" (VBool false) result) = true ->
      truthy (get_default "fixed_code" (VStr []) result) = false ->
      fst run = NoFixProvided /\ effects (snd run) = [])
  /\ (forall result fixed_code,
      parse_llm_response json_loads analysis = Ok (VDict result) ->
      truthy (get_default "has_issues" (VBool false) result) = true ->
      get_default "fixed_code" (VStr []) result = VStr fixed_code ->
      fixed_code <> [] ->
      validate_fixed_code compile original_content fixed_code file_path
      = Ok false ->
      fst run = ValidationFailed /\ effects (snd run) = []).
Proof.
  intros Hreach run. subst run.
  destruct (clone_and_fix_reaching json_loads compile py_str w repo_url
              file_path base_branch original_content analysis Hreach)
    as (owner & repo_name & ->).
  destruct Hreach as (_ & _ & _ & _ & _ & _ & _ & Hgroq & Hne).
  unfold diagnose_and_fix, analyze_code. rewrite Hgroq.
  destruct analysis as [|c analysis]; [contradiction|].
  split; [|split].
  - intros e ->. split; reflexivity.
  - intros result -> -> Hcode. cbn [negb]. rewrite Hcode. split; reflexivity.
  - intros result fixed_code -> -> Hcode Hfix Hvalid. cbn [negb].
    rewrite Hcode. destruct fixed_code as [|d fixed_code]; [contradiction|].
    cbn [truthy negb]. rewrite Hvalid. split; reflexivity.
Qed.

Lemma verdict_decides_outcome_witness :
  let run analysis :=
    clone_and_fix Json.json_loads (fun _ _ => SyntaxError) (fun _ => [])
      (obliging "x = 1" analysis)
      "https://github.com/octocat/hello-world" "app.py" "main" in
  fst (run "[]") = ParseFailed AttributeError
  /\ fst (run (txt "{'has_issues': true, 'fixed_code': ''}")) = NoFixProvided
  /\ fst (run (txt "{'has_issues': 1, 'fixed_code': 'x ='}"))
     = ValidationFailed.
Proof.
  intros run.
  assert (Hreach : forall c analysis,
            reaches_parser (obliging "x = 1" (c :: analysis))
              "https://github.com/octocat/hello-world" "app.py"
              "x = 1" (c :: analysis)).
  { intros c analysis. exists ("octocat" : str), ("hello-world" : str).
    repeat split; try reflexivity. discriminate. }
  split; [|split].
  - exact (proj1 (proj1 (verdict_decides_outcome Json.json_loads
             (fun _ _ => SyntaxError) (fun _ => []) _
             "https://github.com/octocat/hello-world" "app.py" "main"
             "x = 1" _ (Hreach "["%char ["]"%char]))
             AttributeError eq_refl)).
  - exact (proj1 (proj1 (proj2 (verdict_decides_outcome Json.json_loads
             (fun _ _ => SyntaxError) (fun _ => []) _
             "https://github.com/octocat/hello-world" "app.py" "main"
             "x = 1" _
             (Hreach "{"%char (txt "'has_issues': true, 'fixed_code': ''}"))))
             [ ("has_issues" : str, VBool true); ("fixed_code" : str, VStr []) ]
             eq_refl eq_refl eq_refl)).
  - refine (proj1 (proj2 (proj2 (verdict_decides_outcome Json.json_loads
             (fun _ _ => SyntaxError) (fun _ => []) _
             "https://github.com/octocat/hello-world" "app.py" "main"
             "x = 1" _
             (Hreach "{"%char (txt "'has_issues': 1, 'fixed_code': 'x ='}"))))
             [ ("has_issues" : str, VInt 1); ("fixed_code" : str, VStr "x =") ]
             "x =" eq_refl eq_refl eq_refl _ eq_refl)).
    discriminate.
Defined.

(** * From the validated fix to the pull request *)

Lemma join_values_strings sep items :
  forallb is_string items = true ->
  exists joined, join_values sep items = Ok joined.
Proof.
  induction items as [|v items IH]; [now exists []|].
  cbn [forallb]. intros H. apply andb_prop in H as [Hv Hitems].
  destruct v; try discriminate. cbn [join_values].
  destruct items as [|v' items]; [eauto|].
  destruct (IH Hitems) as [rest ->]. cbn [bind]. eauto.
Qed.

Lemma join_values_raises sep items :
  forallb is_string items = false ->
  join_values sep items = Raise TypeError.
Proof.
  induction items as [|v items IH]; [discriminate|].
  cbn [forallb]. intros H.
  destruct v; try reflexivity. cbn [is_string andb] in H.
  cbn [join_values]. destruct items as [|v' items]; [discriminate|].
  now rewrite (IH H).
Qed.

(** A run that reaches the parser and whose fix passes the validator is
    what [apply_fix] makes of it, after the three look-ups. *)
Lemma clone_and_fix_validated json_loads compile py_str w
  repo_url file_path base_branch original_content analysis result fixed_code :
  reaches_parser w repo_url file_path original_content analysis ->
  parse_llm_response json_loads analysis = Ok (VDict result) ->
  truthy (get_default "has_issues" (VBool false) result) = true ->
  get_default "fixed_code" (VStr []) result = VStr fixed_code ->
  fixed_code <> [] ->
  validate_fixed_code compile original_content fixed_code file_path
  = Ok true ->
  let applied :=
    apply_fix py_str w file_path base_branch
      (get_default "issues_found" (VList []) result) fixed_code in
  exists looked_up,
    clone_and_fix json_loads compile py_str w repo_url file_path base_branch
    = (fst applied, looked_up ++ snd applied)
    /\ filter mutates looked_up = []
    /\ effects looked_up = [].
Proof.
  intros Hreach Hparse Hhas Hcode Hne Hvalid applied. subst applied.
  destruct (clone_and_fix_reaching json_loads compile py_str w repo_url
              file_path base_branch original_content analysis Hreach)
    as (owner & repo_name & ->).
  destruct Hreach as (_ & _ & _ & _ & _ & _ & _ & Hgroq & Hana).
  unfold diagnose_and_fix, analyze_code. rewrite Hgroq.
  destruct analysis as [|c analysis]; [contradiction|].
  rewrite Hparse, Hhas. cbn [negb]. rewrite Hcode.
  destruct fixed_code as [|d fixed_code]; [contradiction|].
  cbn [truthy negb]. rewrite Hvalid.
  destruct (apply_fix py_str w file_path base_branch
              (get_default "issues_found" (VList []) result)
              (d :: fixed_code)) as [o t].
  cbn [fst snd].
  exists [ GetRepo (owner ++ "/" ++ repo_name);
           CloneFrom ("https://github.com/" ++ owner ++ "/" ++ repo_name);
           CreateCompletion (prompt_head ++ original_content ++ prompt_tail) ].
  repeat split.
Qed.

(** X20: with collaborators that let the fix through, a validated fix
    becomes a pull request as soon as the first three of the listed issues
    are strings, whatever the later ones are: the six changes are made, in
    order. *)
Theorem validated_fix_is_delivered json_loads compile py_str w
  repo_url file_path base_branch original_content analysis result fixed_code
  items :
  reaches_parser w repo_url file_path original_content analysis ->
  parse_llm_response json_loads analysis = Ok (VDict result) ->
  truthy (get_default "has_issues" (VBool false) result) = true ->
  get_default "fixed_code" (VStr []) result = VStr fixed_code ->
  fixed_code <> [] ->
  validate_fixed_code compile original_content fixed_code file_path
  = Ok true ->
  get_default "issues_found" (VList []) result = VList items ->
  forallb is_string (firstn 3 items) = true ->
  accepts w file_path base_branch fixed_code ->
  let run :=
    clone_and_fix json_loads compile py_str w repo_url file_path base_branch
  in
  fst run = ChangeRequestCreated /\ effects (snd run) = pipeline.
Proof.
  intros Hreach Hparse Hhas Hcode Hne Hvalid Hissues Hstrings
         (Hwrite & Hbranch & Hadd & Hcommit & Hpush & Hpull) run.
  subst run.
  destruct (clone_and_fix_validated json_loads compile py_str w repo_url
              file_path base_branch original_content analysis result
              fixed_code Hreach Hparse Hhas Hcode Hne Hvalid)
    as (looked_up & -> & _ & Hnone).
  cbn [fst snd]. rewrite effects_app, Hnone, Hissues.
  unfold apply_fix, attempt. cbv zeta. fold (branch_name file_path).
  cbn [iterate first_three bind].
  destruct (join_values_strings ", " (firstn 3 items) Hstrings)
    as [joined ->].
  rewrite Hwrite, Hbranch, Hadd, Hpush.
  destruct (3 <? Z.of_nat (List.length items));
    rewrite Hcommit, Hpull; split; reflexivity.
Qed.

Lemma validated_fix_is_delivered_witness :
  let run :=
    clone_and_fix Json.json_loads (fun _ _ => Compiled) (fun _ => "4")
      (obliging "x = 1"
         (txt "{'has_issues': true, 'issues_found': ['a', 'b', 'c', 4], 'fixed_code': 'x = 2'}"))
      "https://github.com/octocat/hello-world" "app.py" "main" in
  fst run = ChangeRequestCreated /\ effects (snd run) = pipeline.
Proof.
  refine (validated_fix_is_delivered Json.json_loads (fun _ _ => Compiled)
            (fun _ => "4")
            (obliging "x = 1"
               (txt "{'has_issues': true, 'issues_found': ['a', 'b', 'c', 4], 'fixed_code': 'x = 2'}"))
            "https://github.com/octocat/hello-world" "app.py" "main"
            "x = 1"
            (txt "{'has_issues': true, 'issues_found': ['a', 'b', 'c', 4], 'fixed_code': 'x = 2'}")
            [ ("has_issues" : str, VBool true);
              ("issues_found" : str,
               VList [VStr "a"; VStr "b"; VStr "c"; VInt 4]);
              ("fixed_code" : str, VStr "x = 2") ]
            "x = 2" [VStr "a"; VStr "b"; VStr "c"; VInt 4]
            _ eq_refl eq_refl eq_refl _ eq_refl eq_refl eq_refl _).
  - exists ("octocat" : str), ("hello-world" : str).
    repeat split; try reflexivity. discriminate.
  - discriminate.
  - repeat split.
Defined.

(** X21: when one of the first three listed issues is not a string, the run
    fails on the commit message, after the fix has been written, the branch
    created and the file staged: these three changes are made and left, and
    nothing is committed, pushed or requested. *)
Theorem unprintable_issue_fails_after_staging json_loads compile py_str w
  repo_url file_path base_branch original_content analysis result fixed_code
  items :
  reaches_parser w repo_url file_path original_content analysis ->
  parse_llm_response json_loads analysis = Ok (VDict result) ->
  truthy (get_default "has_issues" (VBool false) result) = true ->
  get_default "fixed_code" (VStr []) result = VStr fixed_code ->
  fixed_code <> [] ->
  validate_fixed_code compile original_content fixed_code file_path
  = Ok true ->
  get_default "issues_found" (VList []) result = VList items ->
  forallb is_string (firstn 3 items) = false ->
  write_file w file_path fixed_code = true ->
  checkout_b w (branch_name file_path) = true ->
  git_add w file_path = true ->
  let run :=
    clone_and_fix json_loads compile py_str w repo_url file_path base_branch
  in
  fst run = Failed
  /\ filter mutates (snd run)
     = [ WriteFile file_path fixed_code;
         CheckoutB (branch_name file_path);
         Add file_path ].
Proof.
  intros Hreach Hparse Hhas Hcode Hne Hvalid Hissues Hstrings
         Hwrite Hbranch Hadd run.
  subst run.
  destruct (clone_and_fix_validated json_loads compile py_str w repo_url
              file_path base_branch original_content analysis result
              fixed_code Hreach Hparse Hhas Hcode Hne Hvalid)
    as (looked_up & -> & Hnone & _).
  cbn [fst snd]. rewrite filter_app, Hnone, Hissues.
  unfold apply_fix, attempt. cbv zeta. fold (branch_name file_path).
  cbn [iterate first_three bind].
  rewrite (join_values_raises ", " (firstn 3 items) Hstrings).
  rewrite Hwrite, Hbranch, Hadd. split; reflexivity.
Qed.

Lemma unprintable_issue_fails_after_staging_witness :
  let run :=
    clone_and_fix Json.json_loads (fun _ _ => Compiled) (fun _ => "2")
      (obliging "x = 1"
         (txt "{'has_issues': true, 'issues_found': ['a', 2], 'fixed_code': 'x = 2'}"))
      "https://github.com/octocat/hello-world" "app.py" "main" in
  fst run = Failed
  /\ filter mutates (snd run)
     = [ WriteFile "app.py" "x = 2";
         CheckoutB "fix/auto-remediation-app-py";
         Add "app.py" ].
Proof.
  refine (unprintable_issue_fails_after_staging Json.json_loads
            (fun _ _ => Compiled) (fun _ => "2")
            (obliging "x = 1"
               (txt "{'has_issues': true, 'issues_found': ['a', 2], 'fixed_code': 'x = 2'}"))
            "https://github.com/octocat/hello-world" "app.py" "main"
            "x = 1"
            (txt "{'has_issues': true, 'issues_found': ['a', 2], 'fixed_code': 'x = 2'}")
            [ ("has_issues" : str, VBool true);
              ("issues_found" : str, VList [VStr "a"; VInt 2]);
              ("fixed_code" : str, VStr "x = 2") ]
            "x = 2" [VStr "a"; VInt 2]
            _ eq_refl eq_refl eq_refl _ eq_refl eq_refl eq_refl
            eq_refl eq_refl eq_refl).
  - exists ("octocat" : str), ("hello-world" : str).
    repeat split; try reflexivity. discriminate.
  - discriminate.
Defined.

(** X22: a failure of the analysis is contained: when the completion call
    raises, returns nothing or returns the empty text, the run ends in
    [AnalysisFailed] and not in the handler of the other calls, having made
    the three look-ups and nothing else. *)
Theorem analysis_failure_is_contained json_loads compile py_str w
  repo_url file_path base_branch owner repo_name original_content :
  resolve_repo repo_url = Some (owner, repo_name) ->
  get_repo w (owner ++ "/" ++ repo_name) = true ->
  clone_from w ("https://github.com/" ++ owner ++ "/" ++ repo_name) = true ->
  path_exists w file_path = true ->
  read_file w file_path = Some original_content ->
  (exists e,
      create_completion w (prompt_head ++ original_content ++ prompt_tail)
      = Raise e)
  \/ create_completion w (prompt_head ++ original_content ++ prompt_tail)
     = Ok None
  \/ create_completion w (prompt_head ++ original_content ++ prompt_tail)
     = Ok (Some []) ->
  clone_and_fix json_loads compile py_str w repo_url file_path base_branch
  = (AnalysisFailed,
     [ GetRepo (owner ++ "/" ++ repo_name);
       CloneFrom ("https://github.com/" ++ owner ++ "/" ++ repo_name);
       CreateCompletion (prompt_head ++ original_content ++ prompt_tail) ]).
Proof.
  intros Hres Hget Hclone Hpath Hread Hgroq.
  unfold clone_and_fix, attempt.
  rewrite Hres, Hget, Hclone, Hpath, Hread. cbn [negb fst snd].
  unfold diagnose_and_fix, analyze_code.
  destruct Hgroq as [[e ->] | [-> | ->]]; reflexivity.
Qed.

Lemma analysis_failure_is_contained_witness :
  fst (clone_and_fix Json.json_loads (fun _ _ => Compiled) (fun _ => [])
         {| get_repo := fun _ => true;
            clone_from := fun _ => true;
            path_exists := fun _ => true;
            read_file := fun _ => Some ("x = 1" : str);
            create_completion := fun _ => Raise OtherException;
            write_file := fun _ _ => true;
            checkout_b := fun _ => true;
            git_add := fun _ => true;
            git_commit := fun _ => true;
            git_push := fun _ => true;
            create_pull := fun _ _ _ _ => true |}
         "octocat/hello-world" "app.py" "main")
  = AnalysisFailed.
Proof.
  match goal with
  | |- fst (clone_and_fix _ _ _ ?w _ _ _) = _ =>
      refine (f_equal fst
                (analysis_failure_is_contained Json.json_loads
                   (fun _ _ => Compiled) (fun _ => []) w
                   "octocat/hello-world" "app.py" "main"
                   "octocat" "hello-world" "x = 1"
                   eq_refl eq_refl eq_refl eq_refl eq_refl _))
  end.
  left. exists OtherException. reflexivity.
Defined.
